(** * ThreatExchange signal exchange: checkpoint, indicator records,
      type/tag resolver, delta fetch loop and signal projection.

    Shallow embedding of
    [python-threatexchange/threatexchange/exchanges/impl/fb_threatexchange_api.py].

    Conventions of the embedding:
    - Python [int] is [Z]; [str] is [string]; the wall clock ([time.time()])
      is an explicit input of type [Q] (exact arithmetic stands for the
      float);
    - a Python [dict] is an insertion-ordered association list ([PyDict]):
      assigning to a present key keeps its position, assigning to a new key
      appends;
    - indicator records handed to the projection are mutable objects: they
      live in a store ([heap]) and are passed around as locations, so that
      the in-place [merge] is visible through every alias;
    - exceptions are the [inl] side of a sum. *)

From Stdlib Require Import ZArith QArith Lia Sorted.
From stdpp Require Import base list strings.

Local Open Scope Z_scope.

(** ** Insertion-ordered dictionaries *)

Module PyDict.
Section dict.
Context {K V : Type} `{EqDecision K}.

(** [d.get(k)] *)
Fixpoint dict_get (k : K) (d : list (K * V)) : option V :=
  match d with
  | [] => None
  | (k', v') :: d' => if decide (k = k') then Some v' else dict_get k d'
  end.

(** [k in d] *)
Definition dict_contains (k : K) (d : list (K * V)) : bool :=
  match dict_get k d with Some _ => true | None => false end.

(** [d[k] = v] *)
Fixpoint dict_set (k : K) (v : V) (d : list (K * V)) : list (K * V) :=
  match d with
  | [] => [(k, v)]
  | (k', v') :: d' =>
      if decide (k = k') then (k, v) :: d' else (k', v') :: dict_set k v d'
  end.

Definition dict_keys (d : list (K * V)) : list K := d.*1.
Definition dict_values (d : list (K * V)) : list V := d.*2.

(** [dict(items)]: later duplicates overwrite earlier ones in place. *)
Definition dict_of_items (items : list (K * V)) : list (K * V) :=
  fold_left (λ d kv, dict_set kv.1 kv.2 d) items [].

End dict.
(** [dict K V]: the association list of a Python dict, in insertion order. *)
Abbreviation dict K V := (list (K * V)) (only parsing).
End PyDict.
Import PyDict.

(** ** Substring test: Python's [t in s] on strings *)

Fixpoint str_startswith (t s : string) : bool :=
  match t, s with
  | EmptyString, _ => true
  | String a t', String b s' => bool_decide (a = b) && str_startswith t' s'
  | String _ _, EmptyString => false
  end.

(** [str_in t s] is Python's [t in s]: [t] occurs as a contiguous substring of [s]. *)
Fixpoint str_in (t s : string) : bool :=
  str_startswith t s ||
  match s with
  | EmptyString => false
  | String _ s' => str_in t s'
  end.

(** ** Data model *)

(** [state.SignalOpinionCategory] *)
Inductive SignalOpinionCategory :=
  | NEGATIVE_CLASS
  | INVESTIGATION_SEED
  | POSITIVE_CLASS.

#[global] Instance SignalOpinionCategory_eq_dec : EqDecision SignalOpinionCategory.
Proof. solve_decision. Defined.

(** [FBThreatExchangeOpinion(owner, category, tags, descriptor_id)] *)
Record FBThreatExchangeOpinion := Opinion {
  owner : Z;
  category : SignalOpinionCategory;
  tags : list string;
  descriptor_id : option Z;
}.

#[global] Instance FBThreatExchangeOpinion_eq_dec : EqDecision FBThreatExchangeOpinion.
Proof. solve_decision. Defined.

Definition REACTION_DESCRIPTOR_ID : Z := -1.

(** [FBThreatExchangeIndicatorRecord]: the value of a record is its opinion list. *)
Record FBThreatExchangeIndicatorRecord := IndicatorRecord {
  opinions : list FBThreatExchangeOpinion;
}.

#[global] Instance FBThreatExchangeIndicatorRecord_eq_dec :
  EqDecision FBThreatExchangeIndicatorRecord.
Proof. solve_decision. Defined.

(** The decoded remote payload ([ThreatUpdateJSON] and its [raw_json]).  The
    scalar conversions [int(...)] of the source are taken as done by the
    decoder; a payload on which they or a key lookup raise is not a value of
    these types. *)
Record ReactionJSON := Reaction {
  rxn_key : string;      (* reaction["key"] *)
  rxn_value : Z;         (* int(reaction["value"]) *)
}.

(** [td_json.get("tags", [])] is a plain list, or the paginated structure
    [{"data": [{"text": ...}, ...]}]. *)
Inductive TagsJSON :=
  | TagsList (l : list string)
  | TagsData (texts : list string).

Record DescriptorJSON := Descriptor {
  td_id : Z;                         (* int(td_json["id"]) *)
  td_owner_id : Z;                   (* int(td_json["owner"]["id"]) *)
  td_status : string;                (* td_json["status"] *)
  td_tags : TagsJSON;                (* td_json.get("tags", []) *)
  td_reactions : list ReactionJSON;  (* td_json.get("reactions", []) *)
}.

Record ThreatUpdateJSON := ThreatUpdate {
  threat_type : string;
  indicator : string;
  time : Z;
  should_delete : bool;
  descriptors_data : list DescriptorJSON;  (* raw_json["descriptors"]["data"] *)
}.

(** ** Checkpoint *)

Record FBThreatExchangeCheckpoint := Checkpoint {
  update_time : Z;
  last_fetch_time : Z;
}.

(** Python's [int(x)] on a float: truncation toward zero. *)
Definition int_of_float (x : Q) : Z := Z.quot (Qnum x) (Z.pos (Qden x)).

(** [FBThreatExchangeCheckpoint(update_time)] evaluated when the clock reads [now]. *)
Definition new_checkpoint (now : Q) (update_time : Z) : FBThreatExchangeCheckpoint :=
  {| update_time := update_time; last_fetch_time := int_of_float now |}.

Definition is_stale (now : Q) (self : FBThreatExchangeCheckpoint) : bool :=
  negb (Qle_bool (now - inject_Z (last_fetch_time self)) (inject_Z (3600 * 24 * 85))).

Definition get_progress_timestamp (self : FBThreatExchangeCheckpoint) : Z :=
  update_time self.

(** ** Parsing one raw update into an indicator record *)

Section sorted.
Fixpoint sorted_insert (x : string) (l : list string) : list string :=
  match l with
  | [] => [x]
  | y :: l' => if String.leb x y then x :: l else y :: sorted_insert x l'
  end.

(** [sorted(l)] on strings *)
Definition sorted (l : list string) : list string := foldr sorted_insert [] l.
End sorted.

Definition normalize_tags (tags : TagsJSON) : list string :=
  match tags with
  | TagsList l => l
  | TagsData texts => sorted texts
  end.

Definition category_of_status (status : string) : SignalOpinionCategory :=
  if bool_decide (status = "MALICIOUS") then POSITIVE_CLASS
  else if bool_decide (status = "NON_MALICIOUS") then NEGATIVE_CLASS
  else INVESTIGATION_SEED.

(** The opinion built from one descriptor. *)
Definition explicit_opinion (td_json : DescriptorJSON) : FBThreatExchangeOpinion :=
  Opinion (td_owner_id td_json) (category_of_status (td_status td_json))
          (normalize_tags (td_tags td_json)) (Some (td_id td_json)).

(** The opinion synthesized from a reaction. *)
Definition implicit_opinion (owner_id : Z) (category : SignalOpinionCategory)
  : FBThreatExchangeOpinion :=
  Opinion owner_id category [] (Some REACTION_DESCRIPTOR_ID).

(** Body of [for reaction in td_json.get("reactions", [])]. *)
Definition reaction_step (implicit_opinions : dict Z SignalOpinionCategory)
    (reaction : ReactionJSON) : dict Z SignalOpinionCategory :=
  let rxn := rxn_key reaction in
  let owner := rxn_value reaction in
  if bool_decide (rxn = "HELPFUL") then
    dict_set owner POSITIVE_CLASS implicit_opinions
  else if bool_decide (rxn = "DISAGREE_WITH_TAGS") && negb (dict_contains owner implicit_opinions) then
    dict_set owner NEGATIVE_CLASS implicit_opinions
  else implicit_opinions.

(** Body of [for td_json in te_json.raw_json["descriptors"]["data"]]. *)
Definition descriptor_step
    (st : dict Z FBThreatExchangeOpinion * dict Z SignalOpinionCategory)
    (td_json : DescriptorJSON)
  : dict Z FBThreatExchangeOpinion * dict Z SignalOpinionCategory :=
  (dict_set (td_owner_id td_json) (explicit_opinion td_json) st.1,
   fold_left reaction_step (td_reactions td_json) st.2).

(** Body of [for owner_id, category in implicit_opinions.items()]. *)
Definition implicit_step (explicit_opinions : dict Z FBThreatExchangeOpinion)
    (item : Z * SignalOpinionCategory) : dict Z FBThreatExchangeOpinion :=
  if dict_contains item.1 explicit_opinions then explicit_opinions
  else dict_set item.1 (implicit_opinion item.1 item.2) explicit_opinions.

(** The two dictionaries after the descriptor loop. *)
Definition collect_opinions (data : list DescriptorJSON)
  : dict Z FBThreatExchangeOpinion * dict Z SignalOpinionCategory :=
  fold_left descriptor_step data ([], []).

(** [explicit_opinions] after the implicit opinions have been folded in. *)
Definition all_opinions (data : list DescriptorJSON) : dict Z FBThreatExchangeOpinion :=
  let '(explicit_opinions, implicit_opinions) := collect_opinions data in
  fold_left implicit_step implicit_opinions explicit_opinions.

Definition from_threatexchange_json (te_json : ThreatUpdateJSON)
  : option FBThreatExchangeIndicatorRecord :=
  if should_delete te_json then None
  else
    let explicit_opinions := all_opinions (descriptors_data te_json) in
    match explicit_opinions with
    | [] => None
    | _ => Some (IndicatorRecord (dict_values explicit_opinions))
    end.

(** ** The object store of indicator records *)

(** A location of the store. *)
Abbreviation loc := nat (only parsing).

(** [h !! l] is the opinion list of the record object at location [l]. *)
Abbreviation heap := (list (list FBThreatExchangeOpinion)) (only parsing).

Definition opinions_at (h : heap) (l : loc) : list FBThreatExchangeOpinion :=
  default [] (h !! l).

(** [FBThreatExchangeIndicatorRecord(ops)]: a new object. *)
Definition alloc (h : heap) (ops : list FBThreatExchangeOpinion) : heap * loc :=
  (h ++ [ops], length h).

(** [self.merge(other)]: [self.opinions.extend(other.opinions)], in place. *)
Definition merge (h : heap) (self other : loc) : heap :=
  <[self := opinions_at h self ++ opinions_at h other]> h.

(** ** Signal types and the type/tag resolver *)

(** The three shapes of [INDICATOR_TYPE]: a string, a set of strings, or a
    dict from type to optional tag. *)
Inductive IndicatorTypeDecl :=
  | DeclStr (type_ : string)
  | DeclSet (types : list string)
  | DeclDict (types : list (string * option string)).

(** A signal type class.  Classes are dictionary keys by identity, which
    [st_id] stands for.  [INDICATOR_TYPE] is [None] for a class that is not a
    subclass of [HasFbThreatExchangeIndicatorType]; the normalizer is the
    class's own. *)
Record SignalType := {
  st_id : nat;
  INDICATOR_TYPE : option IndicatorTypeDecl;
  normalize_fb_threatexchange_indicator : string → string → option string → string;
}.

Definition TypeMapping := dict string (dict (option string) (list SignalType)).

(** The [types] dict of one signal type. *)
Definition declared_types (decl : IndicatorTypeDecl) : dict string (option string) :=
  match decl with
  | DeclStr type_ => [(type_, None)]
  | DeclSet types => dict_of_items ((λ tag, (tag, None)) <$> types)
  | DeclDict types => dict_of_items types
  end.

(** [ret[type_][tag].append(st)] on the nested defaultdict. *)
Definition mapping_append (st : SignalType) (ret : TypeMapping)
    (item : string * option string) : TypeMapping :=
  let inner := default [] (dict_get item.1 ret) in
  let sts := default [] (dict_get item.2 inner) in
  dict_set item.1 (dict_set item.2 (sts ++ [st]) inner) ret.

Definition _make_indicator_type_mapping (supported_signal_types : list SignalType)
  : TypeMapping :=
  fold_left
    (λ ret st,
       match INDICATOR_TYPE st with
       | None => ret
       | Some types => fold_left (mapping_append st) (declared_types types) ret
       end)
    supported_signal_types [].

(** [any(tag in potential_signal_type for opinion in opinions for tag in opinion.tags)] *)
Definition any_tag_declared (potential_signal_type : dict (option string) (list SignalType))
    (ops : list FBThreatExchangeOpinion) : bool :=
  existsb (λ opinion,
             existsb (λ tag, dict_contains (Some tag) potential_signal_type)
                     (tags opinion))
          ops.

Definition _indicator_applies (u : ThreatUpdateJSON) (type_mapping : TypeMapping)
  : option FBThreatExchangeIndicatorRecord :=
  match dict_get (threat_type u) type_mapping with
  | None => None
  | Some potential_signal_type =>
      match from_threatexchange_json u with
      | None => None
      | Some indicator =>
          if dict_contains None potential_signal_type then Some indicator
          else if any_tag_declared potential_signal_type (opinions indicator)
               then Some indicator
               else None
      end
  end.

(** ** The exchange API object and the delta fetch loop *)

Inductive exn :=
  | NotImplementedError
  | Exception (msg : string).

Definition result (A : Type) : Type := exn + A.

Record FBThreatExchangeCollabConfig := CollabConfig {
  privacy_group : Z;
}.

(** The Graph API client.  [get_threat_updates privacy_group start_time
    page_size] is the cursor: the pages of decoded updates it yields. *)
Record ThreatExchangeAPI := {
  app_id : Z;
  get_threat_updates : Z → option Z → Z → list (list ThreatUpdateJSON);
}.

Record FBThreatExchangeSignalExchangeAPI := {
  _api : option ThreatExchangeAPI;
}.

Definition api (self : FBThreatExchangeSignalExchangeAPI) : result ThreatExchangeAPI :=
  match _api self with
  | None => inl (Exception "App Developer token not configured.")
  | Some a => inr a
  end.

Definition ThreatExchangeDelta : Type :=
  dict (string * string) (option FBThreatExchangeIndicatorRecord)
  * FBThreatExchangeCheckpoint.

(** The inner loop over one page: [batch.append(update)] and the running maximum. *)
Definition consume_page (st : list ThreatUpdateJSON * Z) (fetch : list ThreatUpdateJSON)
  : list ThreatUpdateJSON * Z :=
  fold_left (λ '(batch, highest_time) update,
               (batch ++ [update], Z.max (time update) highest_time))
            fetch st.

(** The [updates] dict recomputed from the whole batch. *)
Definition batch_updates (type_mapping : TypeMapping) (batch : list ThreatUpdateJSON)
  : dict (string * string) (option FBThreatExchangeIndicatorRecord) :=
  fold_left (λ updates u,
               dict_set (threat_type u, indicator u) (_indicator_applies u type_mapping) updates)
            batch [].

(** The loop over the cursor.  [clock n] is the wall-clock reading when the
    [n]-th delta is built; [n] counts the deltas already yielded. *)
Fixpoint fetch_loop (type_mapping : TypeMapping) (clock : nat → Q) (n : nat)
    (batch : list ThreatUpdateJSON) (highest_time : Z)
    (cursor : list (list ThreatUpdateJSON)) : list ThreatExchangeDelta :=
  match cursor with
  | [] => []
  | fetch :: cursor' =>
      let '(batch, highest_time) := consume_page (batch, highest_time) fetch in
      (batch_updates type_mapping batch, new_checkpoint (clock n) highest_time)
        :: fetch_loop type_mapping clock (S n) batch highest_time cursor'
  end.

(** [fetch_iter]: the sequence of deltas the generator yields, for the runs in
    which neither the cursor nor the parse of an update raises (the payloads
    are converted ones, see [ThreatUpdateJSON]); the one failure modelled is
    the missing app token. *)
Definition fetch_iter (self : FBThreatExchangeSignalExchangeAPI) (clock : nat → Q)
    (supported_signal_types : list SignalType)
    (collab : FBThreatExchangeCollabConfig)
    (checkpoint : option FBThreatExchangeCheckpoint)
  : result (list ThreatExchangeDelta) :=
  let start_time := update_time <$> checkpoint in
  match api self with
  | inl e => inl e
  | inr a =>
      let cursor := get_threat_updates a (privacy_group collab) start_time 100 in
      let type_mapping := _make_indicator_type_mapping supported_signal_types in
      inr (fetch_loop type_mapping clock 0 [] 0 cursor)
  end.

(** ** Write path *)

Definition resolve_owner (self : FBThreatExchangeSignalExchangeAPI) (id : Z)
  : result string :=
  inl NotImplementedError.

Definition get_own_owner_id (self : FBThreatExchangeSignalExchangeAPI)
    (collab : FBThreatExchangeCollabConfig) : result Z :=
  match api self with
  | inl e => inl e
  | inr a => inr (app_id a)
  end.

Definition report_seen (self : FBThreatExchangeSignalExchangeAPI)
    (collab : FBThreatExchangeCollabConfig) (s_type : SignalType) (signal : string)
    (metadata : FBThreatExchangeIndicatorRecord) : result unit :=
  inl NotImplementedError.

(** [state.SignalOpinion(owner, category, tags)] *)
Record SignalOpinion := {
  so_owner : Z;
  so_category : SignalOpinionCategory;
  so_tags : list string;
}.

Definition report_opinion (self : FBThreatExchangeSignalExchangeAPI)
    (collab : FBThreatExchangeCollabConfig) (s_type : SignalType) (signal : string)
    (opinion : SignalOpinion) : result unit :=
  inl NotImplementedError.

Definition report_true_positive (self : FBThreatExchangeSignalExchangeAPI)
    (collab : FBThreatExchangeCollabConfig) (s_type : SignalType) (signal : string)
    (metadata : FBThreatExchangeIndicatorRecord) : result unit :=
  match get_own_owner_id self collab with
  | inl e => inl e
  | inr own =>
      report_opinion self collab s_type signal
        {| so_owner := own; so_category := POSITIVE_CLASS; so_tags := [] |}
  end.

Definition report_false_positive (self : FBThreatExchangeSignalExchangeAPI)
    (collab : FBThreatExchangeCollabConfig) (s_type : SignalType) (signal : string)
    (_metadata : FBThreatExchangeIndicatorRecord) : result unit :=
  match get_own_owner_id self collab with
  | inl e => inl e
  | inr own =>
      report_opinion self collab s_type signal
        {| so_owner := own; so_category := NEGATIVE_CLASS; so_tags := [] |}
  end.

(** ** Signal projection *)

(** [[o for o in opinions if any(t in tag for t in o.tags)]] *)
Definition applicable_opinions (tag : string) (ops : list FBThreatExchangeOpinion)
  : list FBThreatExchangeOpinion :=
  List.filter (λ o, existsb (λ t, str_in t tag) (tags o)) ops.

(** Returns the store after the call and the record to insert, if any. *)
Definition _merge_record_for_signal_type (h : heap) (tx_record : loc)
    (tag : option string) (existing : option loc) : heap * option loc :=
  let narrowed : option (heap * loc) :=
    match tag with
    | Some tag =>
        let applicable := applicable_opinions tag (opinions_at h tx_record) in
        match applicable with
        | [] => None
        | _ =>
            if bool_decide (length applicable ≠ length (opinions_at h tx_record))
            then Some (alloc h applicable)
            else Some (h, tx_record)
        end
    | None => Some (h, tx_record)
    end in
  match narrowed with
  | None => (h, None)
  | Some (h, tx_record) =>
      match existing with
      | Some existing => (merge h existing tx_record, None)
      | None => (h, Some tx_record)
      end
  end.

(** The projection result: signal type (by [st_id]) to signal string to record. *)
Definition Projection := dict nat (dict string loc).

(** Body of [for tx_s_type in s_types]. *)
Definition project_signal_type (type_str signal_str : string) (metadata : loc)
    (tag : option string) (st : heap * Projection) (tx_s_type : SignalType)
  : heap * Projection :=
  let '(h, ret) := st in
  let s_type_specific_signal_str :=
    normalize_fb_threatexchange_indicator tx_s_type type_str signal_str tag in
  let s_type := st_id tx_s_type in
  let '(ret, inner) :=
    match dict_get s_type ret with
    | None => (dict_set s_type [] ret, [])
    | Some inner => (ret, inner)
    end in
  let '(h, to_insert) :=
    _merge_record_for_signal_type h metadata tag
      (dict_get s_type_specific_signal_str inner) in
  match to_insert with
  | Some to_insert =>
      (h, dict_set s_type (dict_set s_type_specific_signal_str to_insert inner) ret)
  | None => (h, ret)
  end.

(** [{t for opinion in metadata.opinions for t in opinion.tags}] *)
Definition indicator_tags_of (ops : list FBThreatExchangeOpinion) : list string :=
  concat (tags <$> ops).

(** Body of [for tag, s_types in potential_types.items()]; [indicator_tags]
    was computed once, before the loop. *)
Definition project_tag (type_str signal_str : string) (metadata : loc)
    (indicator_tags : list string) (st : heap * Projection)
    (item : option string * list SignalType) : heap * Projection :=
  let '(tag, s_types) := item in
  let skip :=
    match tag with
    | Some tag => bool_decide (tag ∉ indicator_tags)
    | None => false
    end in
  if skip then st
  else fold_left (project_signal_type type_str signal_str metadata tag) s_types st.

(** Body of [for (type_str, signal_str), metadata in fetched.items()]. *)
Definition project_entry (mapping : TypeMapping) (st : heap * Projection)
    (entry : (string * string) * option loc) : heap * Projection :=
  let '((type_str, signal_str), metadata) := entry in
  match dict_get type_str mapping, metadata with
  | Some potential_types, Some metadata =>
      let indicator_tags := indicator_tags_of (opinions_at st.1 metadata) in
      fold_left (project_tag type_str signal_str metadata indicator_tags) potential_types st
  | _, _ => st
  end.

(** [naive_convert_to_signal_type]: the store after the call and the returned dict. *)
Definition naive_convert_to_signal_type (h : heap) (signal_types : list SignalType)
    (fetched : dict (string * string) (option loc)) : heap * Projection :=
  let mapping := _make_indicator_type_mapping signal_types in
  fold_left (project_entry mapping) fetched (h, []).


(** ** Notions used to state the properties *)

(** Every reaction of a payload, in the order the parse visits them. *)
Definition all_reactions (data : list DescriptorJSON) : list ReactionJSON :=
  concat (td_reactions <$> data).

(** Some reaction with key [key] comes from owner [o]. *)
Definition has_reaction (key : string) (o : Z) (rs : list ReactionJSON) : bool :=
  existsb (λ r, bool_decide (rxn_key r = key) && bool_decide (rxn_value r = o)) rs.

(** The implicit stance of owner [o]: a [HELPFUL] reaction anywhere decides
    for [POSITIVE_CLASS]; failing that, a [DISAGREE_WITH_TAGS] reaction decides
    for [NEGATIVE_CLASS]. *)
Definition implicit_verdict (o : Z) (rs : list ReactionJSON)
  : option SignalOpinionCategory :=
  if has_reaction "HELPFUL" o rs then Some POSITIVE_CLASS
  else if has_reaction "DISAGREE_WITH_TAGS" o rs then Some NEGATIVE_CLASS
  else None.

(** The reading "first-seen wins among implicit reactions": the stance of the
    first [HELPFUL] or [DISAGREE_WITH_TAGS] reaction of owner [o]. *)
Fixpoint first_seen_verdict (o : Z) (rs : list ReactionJSON)
  : option SignalOpinionCategory :=
  match rs with
  | [] => None
  | r :: rs' =>
      if bool_decide (rxn_value r = o) then
        if bool_decide (rxn_key r = "HELPFUL") then Some POSITIVE_CLASS
        else if bool_decide (rxn_key r = "DISAGREE_WITH_TAGS") then Some NEGATIVE_CLASS
        else first_seen_verdict o rs'
      else first_seen_verdict o rs'
  end.

(** The opinions of a record held by owner [o]. *)
Definition opinions_of_owner (o : Z) (ops : list FBThreatExchangeOpinion)
  : list FBThreatExchangeOpinion :=
  filter (λ op, owner op = o) ops.

(** The last descriptor of a payload written by owner [o]. *)
Definition last_descriptor_of (o : Z) (data : list DescriptorJSON) : option DescriptorJSON :=
  last (filter (λ td, td_owner_id td = o) data).

(** Assigning [d[key a] = val a] for every [a] of a list, in order. *)
Definition assign_all {A K V : Type} `{EqDecision K} (key : A → K) (val : A → V)
    (l : list A) (d : list (K * V)) : list (K * V) :=
  fold_left (λ d a, dict_set (key a) (val a) d) l d.

(** Entries of the opinion dictionary are keyed by their own owner. *)
Definition keyed_by_owner (d : list (Z * FBThreatExchangeOpinion)) : Prop :=
  NoDup (dict_keys d) ∧ Forall (λ kv, owner kv.2 = kv.1) d.

(** The maximum of a list of update times, 0 for the empty list. *)
Definition max_time (ts : list Z) : Z := foldr Z.max 0 ts.

(** The dictionary key of an update. *)
Definition update_key (u : ThreatUpdateJSON) : string * string :=
  (threat_type u, indicator u).

(** The last update of a batch with a given key. *)
Definition last_update_with (key : string * string) (batch : list ThreatUpdateJSON)
  : option ThreatUpdateJSON :=
  last (filter (λ u, update_key u = key) batch).

(** The batch accumulated when the [k]-th delta (from 0) is emitted. *)
Definition batch_upto (k : nat) (cursor : list (list ThreatUpdateJSON))
  : list ThreatUpdateJSON :=
  concat (take (S k) cursor).

(** An update maps to "no record": its type has no resolver entry, or it
    parses to nothing, or none of its tags is declared for its type. *)
Definition no_record_case (u : ThreatUpdateJSON) (type_mapping : TypeMapping) : Prop :=
  dict_get (threat_type u) type_mapping = None
  ∨ from_threatexchange_json u = None
  ∨ ∃ potential_signal_type indicator,
      dict_get (threat_type u) type_mapping = Some potential_signal_type
      ∧ from_threatexchange_json u = Some indicator
      ∧ dict_contains None potential_signal_type = false
      ∧ any_tag_declared potential_signal_type (opinions indicator) = false.

(** The record the projection holds for a signal type and a signal string. *)
Definition projection_get (s_type : nat) (signal_str : string) (ret : Projection)
  : option loc :=
  match dict_get s_type ret with
  | Some inner => dict_get signal_str inner
  | None => None
  end.


(** ** Further notions used to state properties *)

(** The retention bound of [is_stale], in seconds. *)
Definition STALE_AFTER : Z := 3600 * 24 * 85.

(** The signal types the resolver holds for a remote type under a tag
    ([mapping[type_][tag]], empty when either key is missing). *)
Definition mapping_lookup (type_ : string) (tag : option string) (mapping : TypeMapping)
  : list SignalType :=
  match dict_get type_ mapping with
  | Some inner => default [] (dict_get tag inner)
  | None => []
  end.

(** A signal type has the ThreatExchange capability and its [INDICATOR_TYPE]
    associates the remote type with exactly this tag requirement. *)
Definition declares (type_ : string) (tag : option string) (st : SignalType) : bool :=
  match INDICATOR_TYPE st with
  | Some decl => bool_decide (dict_get type_ (declared_types decl) = Some tag)
  | None => false
  end.


(** A reaction key the parse acts on. *)
Definition recognised (reaction : ReactionJSON) : bool :=
  bool_decide (rxn_key reaction = "HELPFUL")
  || bool_decide (rxn_key reaction = "DISAGREE_WITH_TAGS").

(** The payload with every reaction of an unrecognised key removed. *)
Definition drop_unrecognised (te_json : ThreatUpdateJSON) : ThreatUpdateJSON :=
  ThreatUpdate (threat_type te_json) (indicator te_json) (time te_json)
    (should_delete te_json)
    ((λ td, Descriptor (td_id td) (td_owner_id td) (td_status td) (td_tags td)
              (List.filter recognised (td_reactions td)))
       <$> descriptors_data te_json).

(** The store [h'] extends [h]: no record is lost, and the opinion list of
    every record of [h] is a prefix of its opinion list in [h']. *)
Definition store_extends (h h' : heap) : Prop :=
  (length h ≤ length h')%nat
  ∧ ∀ l, opinions_at h l `prefix_of` opinions_at h' l.

(** Every signal type of the resolver satisfies [R]. *)
Definition mapping_all (R : SignalType → Prop) (mapping : TypeMapping) : Prop :=
  Forall (λ e, Forall (λ e2, Forall R e2.2) e.2) mapping.

(** Every signal type id of the projection satisfies [Q] and every record it
    stores satisfies [P]. *)
Definition projection_all (Q : nat → Prop) (P : loc → Prop) (ret : Projection) : Prop :=
  Forall (λ e, Q e.1 ∧ Forall (λ e2, P e2.2) e.2) ret.



(** ** The payload before conversion

    [ThreatUpdateJSON] above is the payload after its scalar conversions.
    The records below keep the identifiers as the strings that arrive, and the
    parse converts them where the source does: [int(td_json["id"])],
    [int(td_json["owner"]["id"])], and [int(reaction["value"])], the last for
    every reaction and before its key is looked at.  [py_int] stands for
    Python's [int] on such a string: [None] when it raises. *)

Record RawReactionJSON := RawReaction {
  raw_key : string;     (* reaction["key"] *)
  raw_value : string;   (* reaction["value"] *)
}.

Record RawDescriptorJSON := RawDescriptor {
  raw_id : string;                        (* td_json["id"] *)
  raw_owner_id : string;                  (* td_json["owner"]["id"] *)
  raw_status : string;                    (* td_json["status"] *)
  raw_tags : TagsJSON;                    (* td_json.get("tags", []) *)
  raw_reactions : list RawReactionJSON;   (* td_json.get("reactions", []) *)
}.

Record RawThreatUpdateJSON := RawThreatUpdate {
  raw_threat_type : string;
  raw_indicator : string;
  raw_time : Z;
  raw_should_delete : bool;
  raw_descriptors : list RawDescriptorJSON;
}.

(** What a call does: it raises, or it returns a value. *)
Inductive outcome (A : Type) :=
  | Raises
  | Returns (a : A).
Arguments Raises {A}.
Arguments Returns {A} a.

(** A loop whose body may raise: the first exception ends it. *)
Fixpoint fold_until_raise {A B : Type} (f : B → A → option B) (l : list A) (b : B)
  : option B :=
  match l with
  | [] => Some b
  | x :: l' =>
      match f b x with
      | Some b' => fold_until_raise f l' b'
      | None => None
      end
  end.

(** Converting every element of a list, failing at the first failure. *)
Fixpoint traverse {A B : Type} (f : A → option B) (l : list A) : option (list B) :=
  match l with
  | [] => Some []
  | x :: l' =>
      match f x with
      | Some y =>
          match traverse f l' with
          | Some ys => Some (y :: ys)
          | None => None
          end
      | None => None
      end
  end.

Section raw_parse.
Variable py_int : string → option Z.

(** Body of [for reaction in td_json.get("reactions", [])], conversion included. *)
Definition raw_reaction_step (implicit_opinions : dict Z SignalOpinionCategory)
    (reaction : RawReactionJSON) : option (dict Z SignalOpinionCategory) :=
  let rxn := raw_key reaction in
  match py_int (raw_value reaction) with
  | None => None
  | Some owner => Some (reaction_step implicit_opinions (Reaction rxn owner))
  end.

(** Body of [for td_json in te_json.raw_json["descriptors"]["data"]], conversions included. *)
Definition raw_descriptor_step
    (st : dict Z FBThreatExchangeOpinion * dict Z SignalOpinionCategory)
    (td_json : RawDescriptorJSON)
  : option (dict Z FBThreatExchangeOpinion * dict Z SignalOpinionCategory) :=
  match py_int (raw_id td_json) with
  | None => None
  | Some td_id =>
      match py_int (raw_owner_id td_json) with
      | None => None
      | Some owner_id =>
          let explicit_opinions :=
            dict_set owner_id
              (Opinion owner_id (category_of_status (raw_status td_json))
                 (normalize_tags (raw_tags td_json)) (Some td_id))
              st.1 in
          match fold_until_raise raw_reaction_step (raw_reactions td_json) st.2 with
          | None => None
          | Some implicit_opinions => Some (explicit_opinions, implicit_opinions)
          end
      end
  end.

(** [from_threatexchange_json] on the payload as it arrives. *)
Definition raw_from_threatexchange_json (te_json : RawThreatUpdateJSON)
  : outcome (option FBThreatExchangeIndicatorRecord) :=
  if raw_should_delete te_json then Returns None
  else
    match fold_until_raise raw_descriptor_step (raw_descriptors te_json) ([], []) with
    | None => Raises
    | Some (explicit_opinions, implicit_opinions) =>
        let explicit_opinions := fold_left implicit_step implicit_opinions explicit_opinions in
        match explicit_opinions with
        | [] => Returns None
        | _ => Returns (Some (IndicatorRecord (dict_values explicit_opinions)))
        end
    end.

(** The conversions alone. *)
Definition decode_reaction (reaction : RawReactionJSON) : option ReactionJSON :=
  match py_int (raw_value reaction) with
  | None => None
  | Some owner => Some (Reaction (raw_key reaction) owner)
  end.

Definition decode_descriptor (td_json : RawDescriptorJSON) : option DescriptorJSON :=
  match py_int (raw_id td_json) with
  | None => None
  | Some td_id =>
      match py_int (raw_owner_id td_json) with
      | None => None
      | Some owner_id =>
          match traverse decode_reaction (raw_reactions td_json) with
          | None => None
          | Some reactions =>
              Some (Descriptor td_id owner_id (raw_status td_json) (raw_tags td_json)
                      reactions)
          end
      end
  end.

Definition decode_update (te_json : RawThreatUpdateJSON) : option ThreatUpdateJSON :=
  match traverse decode_descriptor (raw_descriptors te_json) with
  | None => None
  | Some data =>
      Some (ThreatUpdate (raw_threat_type te_json) (raw_indicator te_json)
              (raw_time te_json) (raw_should_delete te_json) data)
  end.
End raw_parse.

(** A reaction key the parse acts on. *)
Definition recognised_key (key : string) : bool :=
  bool_decide (key = "HELPFUL") || bool_decide (key = "DISAGREE_WITH_TAGS").

(** The arriving payload with every reaction of an unrecognised key removed. *)
Definition raw_drop_unrecognised (te_json : RawThreatUpdateJSON) : RawThreatUpdateJSON :=
  RawThreatUpdate (raw_threat_type te_json) (raw_indicator te_json) (raw_time te_json)
    (raw_should_delete te_json)
    ((λ td, RawDescriptor (raw_id td) (raw_owner_id td) (raw_status td) (raw_tags td)
              (List.filter (λ r, recognised_key (raw_key r)) (raw_reactions td)))
       <$> raw_descriptors te_json).

(** ** Sample data *)

Definition a1 : FBThreatExchangeOpinion := Opinion 1 POSITIVE_CLASS ["t1"] (Some 11).
Definition b1 : FBThreatExchangeOpinion := Opinion 2 NEGATIVE_CLASS [] (Some 21).
Definition b2 : FBThreatExchangeOpinion := Opinion 1 POSITIVE_CLASS ["t1"] (Some 11).


(** Owner 5 writes a [NON_MALICIOUS] descriptor; owner 7 reacts
    [DISAGREE_WITH_TAGS] and then [HELPFUL]; owner 5 reacts [HELPFUL] to a
    descriptor of owner 6. *)
Definition sample_update : ThreatUpdateJSON :=
  ThreatUpdate "HASH_MD5" "abc123" 9 false
    [ Descriptor 1 5 "NON_MALICIOUS" (TagsList ["t1"])
        [Reaction "DISAGREE_WITH_TAGS" 7; Reaction "HELPFUL" 7];
      Descriptor 2 6 "MALICIOUS" (TagsData ["z"; "a"])
        [Reaction "HELPFUL" 5; Reaction "DISAGREE_WITH_TAGS" 8; Reaction "SAW_THIS_TOO" 9] ].

(** P3 of the specification: [HELPFUL] then [DISAGREE_WITH_TAGS] from owner 7. *)
Definition helpful_then_disagree : ThreatUpdateJSON :=
  ThreatUpdate "HASH_MD5" "abc123" 9 false
    [ Descriptor 1 5 "MALICIOUS" (TagsList [])
        [Reaction "HELPFUL" 7; Reaction "DISAGREE_WITH_TAGS" 7] ].

(** The same reactions in the other order. *)
Definition disagree_then_helpful : ThreatUpdateJSON :=
  ThreatUpdate "HASH_MD5" "abc123" 9 false
    [ Descriptor 1 5 "MALICIOUS" (TagsList [])
        [Reaction "DISAGREE_WITH_TAGS" 7; Reaction "HELPFUL" 7] ].

(** P2 of the specification: owner 5 writes a descriptor and also reacts
    [DISAGREE_WITH_TAGS]. *)
Definition explicit_and_reaction : ThreatUpdateJSON :=
  ThreatUpdate "HASH_MD5" "abc123" 9 false
    [ Descriptor 3 6 "UNKNOWN" (TagsList ["x"]) [Reaction "DISAGREE_WITH_TAGS" 5];
      Descriptor 4 5 "MALICIOUS" (TagsList ["t1"]) [] ].

Definition update_at (t : Z) : ThreatUpdateJSON :=
  ThreatUpdate "HASH_MD5" "abc123" t false [Descriptor 1 5 "MALICIOUS" (TagsList []) []].

(** A remote that serves one page with times 5, 3, 9, 7 to a first fetch and
    one empty page to a resumed fetch. *)
Definition quiet_remote : ThreatExchangeAPI :=
  {| app_id := 1;
     get_threat_updates := λ _ start_time _,
       match start_time with
       | None => [[update_at 5; update_at 3; update_at 9; update_at 7]]
       | Some _ => [[]]
       end |}.

Definition quiet_exchange : FBThreatExchangeSignalExchangeAPI :=
  {| _api := Some quiet_remote |}.

Definition midnight : nat → Q := λ _, 0%Q.

(** Signal types: one claiming a remote type outright, one claiming a remote
    type under a tag, one without the ThreatExchange capability. *)
Definition video_md5 : SignalType :=
  {| st_id := 1;
     INDICATOR_TYPE := Some (DeclStr "HASH_VIDEO_MD5");
     normalize_fb_threatexchange_indicator := λ _ signal_str _, signal_str |}.

Definition tagged_md5 : SignalType :=
  {| st_id := 2;
     INDICATOR_TYPE := Some (DeclDict [("HASH_MD5", Some "media_type_video")]);
     normalize_fb_threatexchange_indicator := λ _ signal_str _, signal_str |}.

Definition plain_text : SignalType :=
  {| st_id := 3;
     INDICATOR_TYPE := None;
     normalize_fb_threatexchange_indicator := λ _ signal_str _, signal_str |}.

Definition video_update : ThreatUpdateJSON :=
  ThreatUpdate "HASH_VIDEO_MD5" "abc123" 5 false
    [Descriptor 1 10 "MALICIOUS" (TagsList ["t1"]) []].

Definition video_delete : ThreatUpdateJSON :=
  ThreatUpdate "HASH_VIDEO_MD5" "abc123" 7 true [].

Definition unknown_type_update : ThreatUpdateJSON :=
  ThreatUpdate "IP_ADDRESS" "10.0.0.1" 6 false
    [Descriptor 2 10 "MALICIOUS" (TagsList ["t1"]) []].

Definition untagged_md5_update : ThreatUpdateJSON :=
  ThreatUpdate "HASH_MD5" "d41d8" 6 false
    [Descriptor 3 10 "MALICIOUS" (TagsList ["media_type_photo"]) []].

Definition tagged_md5_update : ThreatUpdateJSON :=
  ThreatUpdate "HASH_MD5" "0cc17" 6 false
    [Descriptor 4 11 "NON_MALICIOUS" (TagsList ["media_type_video"]) []].

(** A remote that serves two pages; the second deletes what the first announced. *)
Definition paged_remote : ThreatExchangeAPI :=
  {| app_id := 1;
     get_threat_updates := λ _ _ _,
       [ [video_update; unknown_type_update; untagged_md5_update; tagged_md5_update];
         [video_delete] ] |}.

Definition paged_exchange : FBThreatExchangeSignalExchangeAPI :=
  {| _api := Some paged_remote |}.

Definition sample_collab : FBThreatExchangeCollabConfig := CollabConfig 1234.

Definition exact_tag : FBThreatExchangeOpinion :=
  Opinion 1 POSITIVE_CLASS ["media_type_video"] (Some 11).
Definition shorter_tag : FBThreatExchangeOpinion :=
  Opinion 2 POSITIVE_CLASS ["media"] (Some 12).
Definition longer_tag : FBThreatExchangeOpinion :=
  Opinion 3 POSITIVE_CLASS ["media_type_video_short"] (Some 13).

(** A signal type fed by two remote types under one tag. *)
Definition tagged_url : SignalType :=
  {| st_id := 4;
     INDICATOR_TYPE := Some (DeclDict [("URI", Some "phishing"); ("RAW_URI", Some "phishing")]);
     normalize_fb_threatexchange_indicator := λ _ signal_str _, signal_str |}.

Definition uri_opinion : FBThreatExchangeOpinion :=
  Opinion 1 POSITIVE_CLASS ["phishing"] (Some 31).
Definition raw_uri_opinion : FBThreatExchangeOpinion :=
  Opinion 2 POSITIVE_CLASS ["phishing"; "spam"] (Some 32).

(** A stand-in for [int] on the identifiers of the samples: non-empty
    strings of ASCII digits convert, everything else raises. *)
Fixpoint digits_value (s : string) (acc : Z) : option Z :=
  match s with
  | EmptyString => Some acc
  | String c s' =>
      let n := Z.of_N (Ascii.N_of_ascii c) in
      if (48 <=? n) && (n <=? 57) then digits_value s' (10 * acc + (n - 48)) else None
  end.

Definition sample_int (s : string) : option Z :=
  match s with
  | EmptyString => None
  | _ => digits_value s 0
  end.

(** Owner 5 writes a descriptor; owner 7 reacts [HELPFUL]; a reaction of an
    unrecognised key names owner 9. *)
Definition raw_sample : RawThreatUpdateJSON :=
  RawThreatUpdate "HASH_MD5" "abc123" 9 false
    [ RawDescriptor "1" "5" "MALICIOUS" (TagsList ["t1"])
        [RawReaction "HELPFUL" "7"; RawReaction "SAW_THIS_TOO" "9"] ].

(** The same, with a value that lists two owners on the unrecognised reaction. *)
Definition raw_sample_two_owners : RawThreatUpdateJSON :=
  RawThreatUpdate "HASH_MD5" "abc123" 9 false
    [ RawDescriptor "1" "5" "MALICIOUS" (TagsList ["t1"])
        [RawReaction "HELPFUL" "7"; RawReaction "SAW_THIS_TOO" "7,8"] ].

(** * Properties *)

(** ** Facts about insertion-ordered dictionaries *)

Section dict_facts.
Context {K V : Type} `{EqDecision K}.
Implicit Types (k : K) (v : V) (d : list (K * V)).

Lemma dict_get_set_eq k v d : dict_get k (dict_set k v d) = Some v.
Proof.
  induction d as [|[k' v'] d IH]; simpl.
  - by rewrite decide_True.
  - destruct (decide (k = k')) as [->|Hne]; simpl.
    + by rewrite decide_True.
    + by rewrite decide_False.
Qed.

Lemma dict_get_set_ne k k' v d :
  k ≠ k' → dict_get k' (dict_set k v d) = dict_get k' d.
Proof.
  intros Hne. induction d as [|[k0 v0] d IH]; simpl.
  - by rewrite decide_False.
  - destruct (decide (k = k0)) as [->|Hne0]; simpl.
    + by rewrite !decide_False.
    + by rewrite IH.
Qed.

Lemma dict_get_set k k' v d :
  dict_get k' (dict_set k v d) = if decide (k = k') then Some v else dict_get k' d.
Proof.
  destruct (decide (k = k')) as [->|Hne];
    [apply dict_get_set_eq | by apply dict_get_set_ne].
Qed.

Lemma dict_get_None k d : dict_get k d = None ↔ k ∉ dict_keys d.
Proof.
  unfold dict_keys. induction d as [|[k' v'] d IH]; csimpl.
  - split; [intros _; apply not_elem_of_nil | done].
  - rewrite not_elem_of_cons. destruct (decide (k = k')) as [->|Hne].
    + split; [done | intros [? _]; done].
    + rewrite IH. tauto.
Qed.

Lemma dict_get_is_Some k d : is_Some (dict_get k d) ↔ k ∈ dict_keys d.
Proof.
  rewrite <-not_eq_None_Some, dict_get_None.
  destruct (decide (k ∈ dict_keys d)); tauto.
Qed.

Lemma dict_contains_true k d : dict_contains k d = true ↔ k ∈ dict_keys d.
Proof.
  rewrite <-dict_get_is_Some. unfold dict_contains.
  destruct (dict_get k d); split; try done; try (intros _; by eexists).
Qed.

Lemma dict_contains_false k d : dict_contains k d = false ↔ k ∉ dict_keys d.
Proof.
  rewrite <-dict_contains_true. destruct (dict_contains k d); split; try done.
Qed.

Lemma dict_keys_set k v d :
  dict_keys (dict_set k v d) =
    if dict_contains k d then dict_keys d else dict_keys d ++ [k].
Proof.
  unfold dict_keys, dict_contains. induction d as [|[k' v'] d IH]; csimpl; [done|].
  destruct (decide (k = k')) as [->|Hne]; csimpl; [done|].
  rewrite IH. by destruct (dict_get k d).
Qed.

Lemma elem_of_dict_keys_set k k' v d :
  k' ∈ dict_keys (dict_set k v d) ↔ k' = k ∨ k' ∈ dict_keys d.
Proof.
  rewrite dict_keys_set. destruct (dict_contains k d) eqn:Hc.
  - apply dict_contains_true in Hc. split; [auto | intros [->|?]; done].
  - rewrite elem_of_app, list_elem_of_singleton. tauto.
Qed.

Lemma dict_keys_set_NoDup k v d :
  NoDup (dict_keys d) → NoDup (dict_keys (dict_set k v d)).
Proof.
  intros Hnd. rewrite dict_keys_set. destruct (dict_contains k d) eqn:Hc; [done|].
  apply dict_contains_false in Hc. apply NoDup_app. split_and!; [done| |].
  - intros x Hx ->%list_elem_of_singleton. done.
  - apply NoDup_singleton.
Qed.

Lemma dict_get_Some_elem k v d :
  NoDup (dict_keys d) → dict_get k d = Some v ↔ (k, v) ∈ d.
Proof.
  unfold dict_keys. induction d as [|[k' v'] d IH]; csimpl; intros Hnd.
  - split; [done | intros H; by apply not_elem_of_nil in H].
  - apply NoDup_cons in Hnd as [Hnotin Hnd]. rewrite elem_of_cons.
    destruct (decide (k = k')) as [->|Hne].
    + split.
      * intros [= ->]. by left.
      * intros [[= ->]|Hin]; [done|].
        exfalso. apply Hnotin. apply list_elem_of_fmap. by exists (k', v).
    + rewrite IH by done. split; [auto | intros [[= ? ?]|?]; done].
Qed.

Lemma dict_get_elem k v d : dict_get k d = Some v → (k, v) ∈ d.
Proof.
  induction d as [|[k' v'] d IH]; simpl; [done|].
  destruct (decide (k = k')) as [->|Hne].
  - intros [= ->]. apply elem_of_cons. by left.
  - intros H. apply elem_of_cons. right. auto.
Qed.

End dict_facts.

(** ** Facts about the substring test *)

Lemma str_startswith_spec t s :
  str_startswith t s = true ↔ ∃ r, s = (t +:+ r)%string.
Proof.
  revert s. induction t as [|a t IH]; intros s; simpl.
  - split; [intros _; by exists s | done].
  - destruct s as [|b s]; simpl.
    + split; [done | intros [r Hr]; done].
    + rewrite andb_true_iff, bool_decide_eq_true, IH. split.
      * intros [-> [r ->]]. by exists r.
      * intros [r [= -> ->]]. split; [done | by exists r].
Qed.

Lemma str_in_spec t s :
  str_in t s = true ↔ ∃ l r, s = (l +:+ t +:+ r)%string.
Proof.
  induction s as [|b s IH]; simpl.
  - rewrite orb_false_r, str_startswith_spec. split.
    + intros [r Hr]. by exists EmptyString, r.
    + intros [[|? ?] [r Hr]]; [by exists r | done].
  - rewrite orb_true_iff, str_startswith_spec, IH. split.
    + intros [[r Hr]|(l & r & ->)].
      * by exists EmptyString, r.
      * by exists (String b l), r.
    + intros [[|a l] [r Hr]]; simpl in Hr.
      * left. by exists r.
      * injection Hr as -> ->. right. by exists l, r.
Qed.

Lemma str_startswith_refl s : str_startswith s s = true.
Proof. induction s; simpl; [done|]. by rewrite bool_decide_true. Qed.

Lemma str_in_refl s : str_in s s = true.
Proof. destruct s; simpl; [done|]. by rewrite bool_decide_true, str_startswith_refl. Qed.


(** ** Checkpoint staleness *)

Lemma is_stale_true (now : Q) (self : FBThreatExchangeCheckpoint) :
  is_stale now self = true ↔
  (inject_Z (85 * 86400) < now - inject_Z (last_fetch_time self))%Q.
Proof.
  unfold is_stale. rewrite negb_true_iff.
  change (3600 * 24 * 85) with (85 * 86400).
  split.
  - intros H. apply Qnot_le_lt. intros Hle.
    apply Qle_bool_iff in Hle. congruence.
  - intros H. destruct (Qle_bool _ _) eqn:E; [|done].
    apply Qle_bool_iff in E. exfalso. by apply (Qlt_not_le _ _ H).
Qed.

Lemma is_stale_at_age (age : Z) (ut lft : Z) :
  is_stale (inject_Z (lft + age)) (Checkpoint ut lft) = bool_decide (85 * 86400 < age).
Proof.
  unfold is_stale, Qle_bool, Qminus, Qplus, Qopp, inject_Z.
  cbn [Qnum Qden last_fetch_time Pos.mul].
  change (Z.pos (1 * 1)) with 1.
  case_bool_decide as Hage; destruct (Z.leb_spec
    (((lft + age) * 1 + - lft * 1) * 1) (3600 * 24 * 85 * 1)); simpl; try done; lia.
Qed.

(** C6. [is_stale] answers true exactly when the clock exceeds
    [last_fetch_time] by more than 85 * 86400 seconds.  At an age of one
    second more than the bound the checkpoint is stale; at the bound itself,
    and one second below it, it is not. *)
Theorem is_stale_exact :
  (∀ (now : Q) (self : FBThreatExchangeCheckpoint),
     is_stale now self = true ↔
     (inject_Z (85 * 86400) < now - inject_Z (last_fetch_time self))%Q)
  ∧ (∀ ut lft, is_stale (inject_Z (lft + (85 * 86400 + 1))) (Checkpoint ut lft) = true)
  ∧ (∀ ut lft, is_stale (inject_Z (lft + 85 * 86400)) (Checkpoint ut lft) = false)
  ∧ (∀ ut lft, is_stale (inject_Z (lft + (85 * 86400 - 1))) (Checkpoint ut lft) = false).
Proof.
  split_and!.
  - apply is_stale_true.
  - intros. by rewrite is_stale_at_age.
  - intros. by rewrite is_stale_at_age.
  - intros. by rewrite is_stale_at_age.
Qed.

(** ** Write path *)

(** C9. [resolve_owner], [report_seen] and [report_opinion] raise
    [NotImplementedError] on every invocation. *)
Theorem write_path_not_implemented :
  ∀ (self : FBThreatExchangeSignalExchangeAPI) (id : Z)
    (collab : FBThreatExchangeCollabConfig) (s_type : SignalType) (signal : string)
    (metadata : FBThreatExchangeIndicatorRecord) (opinion : SignalOpinion),
    resolve_owner self id = inl NotImplementedError
    ∧ report_seen self collab s_type signal metadata = inl NotImplementedError
    ∧ report_opinion self collab s_type signal opinion = inl NotImplementedError.
Proof. intros. by split_and!. Qed.

(** The reporting helpers built on [report_opinion] never succeed either:
    they raise the configuration error or [NotImplementedError]. *)
Lemma report_true_positive_raises self collab s_type signal metadata :
  report_true_positive self collab s_type signal metadata =
    match _api self with
    | None => inl (Exception "App Developer token not configured.")
    | Some _ => inl NotImplementedError
    end.
Proof.
  unfold report_true_positive, get_own_owner_id, api. by destruct (_api self).
Qed.

(** ** Merging records in the store *)

Lemma opinions_at_insert_eq (h : heap) l ops :
  (l < length h)%nat → opinions_at (<[l := ops]> h) l = ops.
Proof. intros Hl. unfold opinions_at. by rewrite list_lookup_insert_eq. Qed.

Lemma opinions_at_insert_ne (h : heap) l l' ops :
  l ≠ l' → opinions_at (<[l := ops]> h) l' = opinions_at h l'.
Proof. intros Hl. unfold opinions_at. by rewrite list_lookup_insert_ne. Qed.

Lemma opinions_at_merge_self (h : heap) a b :
  (a < length h)%nat →
  opinions_at (merge h a b) a = opinions_at h a ++ opinions_at h b.
Proof. intros Ha. unfold merge. by rewrite opinions_at_insert_eq. Qed.

Lemma opinions_at_merge_other (h : heap) a b l :
  a ≠ l → opinions_at (merge h a b) l = opinions_at h l.
Proof. intros Ha. unfold merge. by rewrite opinions_at_insert_ne. Qed.

Lemma length_merge (h : heap) a b : length (merge h a b) = length h.
Proof. unfold merge. apply length_insert. Qed.

(** C8. [A.merge(B)] makes [A]'s opinion list its prior opinions followed by
    [B]'s, in order and without deduplication, so the lengths add; every
    other record, [B] included when it is not [A] itself, is unchanged. *)
Theorem merge_concatenates (h : heap) (a b : loc) (opsA opsB : list FBThreatExchangeOpinion) :
  h !! a = Some opsA →
  h !! b = Some opsB →
  opinions_at (merge h a b) a = opsA ++ opsB
  ∧ length (opinions_at (merge h a b) a) = (length opsA + length opsB)%nat
  ∧ (∀ l, l ≠ a → opinions_at (merge h a b) l = opinions_at h l).
Proof.
  intros Ha Hb.
  assert (opinions_at (merge h a b) a = opsA ++ opsB) as Heq.
  { rewrite opinions_at_merge_self by (by eapply lookup_lt_Some).
    unfold opinions_at. by rewrite Ha, Hb. }
  split_and!; [done | by rewrite Heq, length_app |].
  intros l Hl. by apply opinions_at_merge_other.
Qed.

Lemma merge_concatenates_witness :
  let h : heap := [[a1]; [b1; b2]] in
  (h !! 0%nat = Some [a1] ∧ h !! 1%nat = Some [b1; b2])
  ∧ opinions_at (merge h 0 1) 0 = [a1] ++ [b1; b2]
  ∧ length (opinions_at (merge h 0 1) 0) = (length [a1] + length [b1; b2])%nat
  ∧ (∀ l, l ≠ 0%nat → opinions_at (merge h 0 1) l = opinions_at h l).
Proof.
  intros h. split; [split; reflexivity |].
  apply (merge_concatenates h 0 1 [a1] [b1; b2]); reflexivity.
Defined.

(** ** Folding assignments into a dictionary *)

Section fold_set.
Context {A K V : Type} `{EqDecision K} (key : A → K) (val : A → V).

Lemma dict_get_assign_all l d k :
  dict_get k (assign_all key val l d) =
    match last (filter (λ a, key a = k) l) with
    | Some a => Some (val a)
    | None => dict_get k d
    end.
Proof.
  unfold assign_all. revert d. induction l as [|a l IH]; intros d; simpl; [done|].
  rewrite IH, dict_get_set. rewrite filter_cons.
  destruct (decide (key a = k)) as [Hk|Hk].
  - rewrite last_cons. by destruct (last (filter _ l)).
  - done.
Qed.

Lemma dict_keys_assign_all l d k :
  k ∈ dict_keys (assign_all key val l d) ↔ k ∈ dict_keys d ∨ ∃ a, a ∈ l ∧ key a = k.
Proof.
  unfold assign_all. revert d. induction l as [|a l IH]; intros d; simpl.
  - split; [auto | intros [?|(a & Ha & _)]; [done | by apply not_elem_of_nil in Ha]].
  - rewrite IH, elem_of_dict_keys_set. split.
    + intros [[->|?]|(a' & Ha' & <-)]; [right | by left | right].
      * exists a. split; [apply elem_of_cons; by left | done].
      * exists a'. split; [apply elem_of_cons; by right | done].
    + intros [?|(a' & Ha' & <-)]; [left; by right|].
      apply elem_of_cons in Ha' as [->|Ha']; [left; by left | right; by exists a'].
Qed.

Lemma dict_keys_assign_all_NoDup l d :
  NoDup (dict_keys d) → NoDup (dict_keys (assign_all key val l d)).
Proof.
  unfold assign_all. revert d. induction l as [|a l IH]; intros d Hd; simpl; [done|].
  apply IH. by apply dict_keys_set_NoDup.
Qed.
End fold_set.

Lemma dict_set_not_nil {K V} `{EqDecision K} (k : K) (v : V) d : dict_set k v d ≠ [].
Proof. destruct d as [|[k' v'] d]; simpl; [done|]. by destruct (decide (k = k')). Qed.

Lemma dict_set_Forall {K V} `{EqDecision K} (P : K * V → Prop) k v d :
  P (k, v) → Forall P d → Forall P (dict_set k v d).
Proof.
  intros Hkv Hd. induction Hd as [|[k' v'] d Hx Hd IH]; simpl.
  - by constructor.
  - destruct (decide (k = k')); constructor; auto.
Qed.

(** ** Parsing: the two dictionaries *)

Lemma keyed_by_owner_set k op d :
  owner op = k → keyed_by_owner d → keyed_by_owner (dict_set k op d).
Proof.
  intros Hk [Hnd Hall]. split; [by apply dict_keys_set_NoDup|].
  by apply dict_set_Forall.
Qed.

Lemma keyed_by_owner_values d :
  keyed_by_owner d → owner <$> dict_values d = dict_keys d.
Proof.
  intros [_ Hall]. unfold dict_values, dict_keys.
  induction Hall as [|[k v] d Hx Hd IH]; csimpl; [done|].
  simpl in Hx. by rewrite Hx, IH.
Qed.

Lemma opinions_of_owner_values o d :
  keyed_by_owner d →
  opinions_of_owner o (dict_values d) = option_list (dict_get o d).
Proof.
  intros [Hnd Hall]. unfold opinions_of_owner, dict_values, dict_keys in *.
  induction Hall as [|[k v] d Hx Hd IH]; csimpl; [done|].
  simpl in Hx. csimpl in Hnd. apply NoDup_cons in Hnd as [Hnotin Hnd].
  rewrite filter_cons, Hx. destruct (decide (o = k)) as [->|Hne].
  - rewrite decide_True by done. rewrite IH by done.
    assert (dict_get k d = None) as -> by (by apply dict_get_None). done.
  - rewrite decide_False by done. by apply IH.
Qed.

Lemma collect_opinions_fst data ex im :
  (fold_left descriptor_step data (ex, im)).1 =
    assign_all td_owner_id explicit_opinion data ex.
Proof.
  unfold assign_all. revert ex im. induction data as [|td data IH]; intros ex im; simpl; [done|].
  unfold descriptor_step at 2. simpl. apply IH.
Qed.

Lemma collect_opinions_snd data ex im :
  (fold_left descriptor_step data (ex, im)).2 =
    fold_left reaction_step (all_reactions data) im.
Proof.
  unfold all_reactions. revert ex im.
  induction data as [|td data IH]; intros ex im; csimpl; [done|].
  unfold descriptor_step at 2. simpl. by rewrite IH, fold_left_app.
Qed.

Lemma keyed_by_owner_explicit data ex :
  keyed_by_owner ex → keyed_by_owner (assign_all td_owner_id explicit_opinion data ex).
Proof.
  unfold assign_all. revert ex. induction data as [|td data IH]; intros ex Hex; simpl; [done|].
  apply IH. by apply keyed_by_owner_set.
Qed.

Lemma keyed_by_owner_implicit im ex :
  keyed_by_owner ex → keyed_by_owner (fold_left implicit_step im ex).
Proof.
  revert ex. induction im as [|[k c] im IH]; intros ex Hex; simpl; [done|].
  apply IH. unfold implicit_step. simpl.
  destruct (dict_contains k ex); [done|]. by apply keyed_by_owner_set.
Qed.

Lemma dict_get_implicit o im ex :
  dict_get o (fold_left implicit_step im ex) =
    match dict_get o ex with
    | Some op => Some op
    | None => implicit_opinion o <$> dict_get o im
    end.
Proof.
  revert ex. induction im as [|[k c] im IH]; intros ex; simpl.
  - by destruct (dict_get o ex).
  - rewrite IH. unfold implicit_step. simpl.
    destruct (dict_contains k ex) eqn:Hc.
    + destruct (dict_get o ex) eqn:Ho; [done|].
      destruct (decide (o = k)) as [->|Hne]; [|done].
      unfold dict_contains in Hc. by rewrite Ho in Hc.
    + rewrite dict_get_set. unfold dict_contains in Hc.
      destruct (decide (k = o)) as [->|Hne].
      * rewrite decide_True by done. by destruct (dict_get o ex).
      * rewrite decide_False by done. done.
Qed.

Lemma fold_implicit_not_nil im ex : ex ≠ [] → fold_left implicit_step im ex ≠ [].
Proof.
  revert ex. induction im as [|[k c] im IH]; intros ex Hex; simpl; [done|].
  apply IH. unfold implicit_step. simpl.
  destruct (dict_contains k ex); [done | apply dict_set_not_nil].
Qed.

Lemma assign_all_not_nil {A K V} `{EqDecision K} (key : A → K) (val : A → V) l d :
  l ≠ [] ∨ d ≠ [] → assign_all key val l d ≠ [].
Proof.
  unfold assign_all. revert d. induction l as [|a l IH]; intros d Hd; simpl.
  - by destruct Hd.
  - apply IH. right. apply dict_set_not_nil.
Qed.

Lemma all_opinions_unfold data :
  all_opinions data =
    fold_left implicit_step
      (fold_left reaction_step (all_reactions data) [])
      (assign_all td_owner_id explicit_opinion data []).
Proof.
  unfold all_opinions, collect_opinions.
  rewrite <-(collect_opinions_fst data [] []), <-(collect_opinions_snd data [] []).
  by destruct (fold_left descriptor_step data ([], [])).
Qed.

Lemma all_opinions_nil data : all_opinions data = [] ↔ data = [].
Proof.
  split.
  - intros Hnil. destruct data as [|td data]; [done|]. exfalso.
    rewrite all_opinions_unfold in Hnil. revert Hnil.
    apply fold_implicit_not_nil, assign_all_not_nil. by left.
  - by intros ->.
Qed.

Lemma keyed_by_owner_all_opinions data : keyed_by_owner (all_opinions data).
Proof.
  rewrite all_opinions_unfold.
  apply keyed_by_owner_implicit, keyed_by_owner_explicit.
  split; [apply NoDup_nil_2 | constructor].
Qed.

Lemma from_threatexchange_json_Some te_json r :
  from_threatexchange_json te_json = Some r →
  should_delete te_json = false
  ∧ opinions r = dict_values (all_opinions (descriptors_data te_json))
  ∧ all_opinions (descriptors_data te_json) ≠ [].
Proof.
  unfold from_threatexchange_json.
  destruct (should_delete te_json); [done|].
  destruct (all_opinions _) as [|kv d] eqn:E; [done|].
  by intros [= <-].
Qed.

Example parse_sample_update :
  from_threatexchange_json sample_update =
    Some (IndicatorRecord
            [ Opinion 5 NEGATIVE_CLASS ["t1"] (Some 1);
              Opinion 6 POSITIVE_CLASS ["a"; "z"] (Some 2);
              Opinion 7 POSITIVE_CLASS [] (Some (-1));
              Opinion 8 NEGATIVE_CLASS [] (Some (-1)) ]).
Proof. reflexivity. Qed.

Example parse_helpful_then_disagree :
  from_threatexchange_json helpful_then_disagree =
    Some (IndicatorRecord
            [ Opinion 5 POSITIVE_CLASS [] (Some 1);
              Opinion 7 POSITIVE_CLASS [] (Some (-1)) ]).
Proof. reflexivity. Qed.

Example parse_disagree_then_helpful :
  from_threatexchange_json disagree_then_helpful =
    Some (IndicatorRecord
            [ Opinion 5 POSITIVE_CLASS [] (Some 1);
              Opinion 7 POSITIVE_CLASS [] (Some (-1)) ]).
Proof. reflexivity. Qed.

(** C7. A raw update carrying the delete marker, and one whose parse yields
    no opinion, give no record; the parse yields no opinion exactly when
    [descriptors.data] is empty; a record that is returned has opinions. *)
Theorem from_threatexchange_json_drops_empty (te_json : ThreatUpdateJSON) :
  (from_threatexchange_json te_json = None ↔
     should_delete te_json = true ∨ all_opinions (descriptors_data te_json) = [])
  ∧ (all_opinions (descriptors_data te_json) = [] ↔ descriptors_data te_json = [])
  ∧ from_threatexchange_json te_json ≠ Some (IndicatorRecord []).
Proof.
  split_and!.
  - unfold from_threatexchange_json. destruct (should_delete te_json).
    + split; [by left | done].
    + destruct (all_opinions _) as [|kv d]; split; try done; [by right | by intros [|]].
  - apply all_opinions_nil.
  - intros (_ & Hops & Hne)%from_threatexchange_json_Some. simpl in Hops.
    destruct (all_opinions _); [done | discriminate Hops].
Qed.

(** ** Parsing: one opinion per owner, explicit before implicit *)

Lemma dict_get_explicit o data :
  dict_get o (assign_all td_owner_id explicit_opinion data []) =
    explicit_opinion <$> last_descriptor_of o data.
Proof.
  rewrite dict_get_assign_all. unfold last_descriptor_of.
  by destruct (last _).
Qed.

Lemma dict_get_all_opinions o data :
  dict_get o (all_opinions data) =
    match last_descriptor_of o data with
    | Some td => Some (explicit_opinion td)
    | None =>
        implicit_opinion o <$>
          dict_get o (fold_left reaction_step (all_reactions data) [])
    end.
Proof.
  rewrite all_opinions_unfold, dict_get_implicit, dict_get_explicit.
  by destruct (last_descriptor_of o data).
Qed.

Lemma last_descriptor_of_is_Some o data :
  is_Some (last_descriptor_of o data) ↔ ∃ td, td ∈ data ∧ td_owner_id td = o.
Proof.
  unfold last_descriptor_of. split.
  - intros [td Htd]. exists td. apply last_Some_elem_of in Htd.
    by apply list_elem_of_filter in Htd as [? ?].
  - intros (td & Hin & Ho).
    assert (td ∈ filter (λ td, td_owner_id td = o) data) as Hf
      by (by apply list_elem_of_filter).
    destruct (filter _ data) as [|x l] eqn:E.
    + by apply not_elem_of_nil in Hf.
    + rewrite last_cons. destruct (last l); by eexists.
Qed.

(** C5. A parsed record has at most one opinion per owner, and an owner who
    wrote a descriptor is represented by the opinion of that descriptor (the
    last one, should the owner have written several), whatever reactions the
    owner also left. *)
Theorem one_opinion_per_owner (te_json : ThreatUpdateJSON)
    (r : FBThreatExchangeIndicatorRecord) :
  from_threatexchange_json te_json = Some r →
  NoDup (owner <$> opinions r)
  ∧ ∀ td, td ∈ descriptors_data te_json →
      ∃ td', last_descriptor_of (td_owner_id td) (descriptors_data te_json) = Some td'
             ∧ td_owner_id td' = td_owner_id td
             ∧ opinions_of_owner (td_owner_id td) (opinions r) = [explicit_opinion td']
             ∧ category (explicit_opinion td') = category_of_status (td_status td')
             ∧ descriptor_id (explicit_opinion td') = Some (td_id td').
Proof.
  intros (_ & Hops & _)%from_threatexchange_json_Some.
  pose proof (keyed_by_owner_all_opinions (descriptors_data te_json)) as Hk.
  rewrite Hops. split.
  - rewrite keyed_by_owner_values by done. apply Hk.
  - intros td Htd.
    destruct (last_descriptor_of (td_owner_id td) (descriptors_data te_json))
      as [td'|] eqn:Hlast.
    + exists td'. split_and!; try done.
      * unfold last_descriptor_of in Hlast. apply last_Some_elem_of in Hlast.
        by apply list_elem_of_filter in Hlast as [? ?].
      * rewrite opinions_of_owner_values by done.
        by rewrite dict_get_all_opinions, Hlast.
    + exfalso. assert (is_Some (last_descriptor_of (td_owner_id td) (descriptors_data te_json))) as [? ?].
      { apply last_descriptor_of_is_Some. by exists td. }
      congruence.
Qed.

Lemma one_opinion_per_owner_witness :
  let r := IndicatorRecord [ Opinion 6 INVESTIGATION_SEED ["x"] (Some 3);
                             Opinion 5 POSITIVE_CLASS ["t1"] (Some 4) ] in
  from_threatexchange_json explicit_and_reaction = Some r
  ∧ NoDup (owner <$> opinions r)
  ∧ ∀ td, td ∈ descriptors_data explicit_and_reaction →
      ∃ td', last_descriptor_of (td_owner_id td) (descriptors_data explicit_and_reaction)
               = Some td'
             ∧ td_owner_id td' = td_owner_id td
             ∧ opinions_of_owner (td_owner_id td) (opinions r) = [explicit_opinion td']
             ∧ category (explicit_opinion td') = category_of_status (td_status td')
             ∧ descriptor_id (explicit_opinion td') = Some (td_id td').
Proof.
  intros r. split; [reflexivity|].
  apply (one_opinion_per_owner explicit_and_reaction r). reflexivity.
Defined.

(** ** Parsing: the implicit stance of an owner *)

Lemma dict_get_reactions o rs im :
  dict_get o (fold_left reaction_step rs im) =
    if has_reaction "HELPFUL" o rs then Some POSITIVE_CLASS
    else match dict_get o im with
         | Some c => Some c
         | None =>
             if has_reaction "DISAGREE_WITH_TAGS" o rs then Some NEGATIVE_CLASS else None
         end.
Proof.
  revert im. induction rs as [|[key own] rs IH]; intros im; simpl.
  - by destruct (dict_get o im).
  - rewrite IH. unfold reaction_step. simpl.
    destruct (has_reaction "HELPFUL" o rs) eqn:HH; [by rewrite orb_true_r|].
    rewrite orb_false_r.
    destruct (decide (key = "HELPFUL")) as [->|HkH].
    + rewrite (bool_decide_true ("HELPFUL" = "HELPFUL")) by done.
      rewrite (bool_decide_false ("HELPFUL" = "DISAGREE_WITH_TAGS")) by done.
      simpl. rewrite dict_get_set. case_bool_decide as Hown.
      * by rewrite decide_True.
      * by rewrite decide_False.
    + rewrite (bool_decide_false (key = "HELPFUL")) by done. simpl.
      destruct (decide (key = "DISAGREE_WITH_TAGS")) as [->|HkD].
      * rewrite (bool_decide_true ("DISAGREE_WITH_TAGS" = "DISAGREE_WITH_TAGS")) by done.
        simpl. unfold dict_contains.
        destruct (dict_get own im) eqn:Hown; simpl.
        -- destruct (dict_get o im) eqn:Ho; [done|].
           rewrite bool_decide_false; [done|]. intros ->. congruence.
        -- rewrite dict_get_set. case_bool_decide as Hoo.
           ++ rewrite decide_True by done. subst. by rewrite Hown.
           ++ by rewrite decide_False.
      * by rewrite (bool_decide_false (key = "DISAGREE_WITH_TAGS")).
Qed.

Lemma dict_get_implicit_verdict o rs :
  dict_get o (fold_left reaction_step rs []) = implicit_verdict o rs.
Proof. by rewrite dict_get_reactions. Qed.

(** C2, as the code has it.  For an owner without a descriptor of its own,
    the parsed record holds the implicit opinion [implicit_verdict] names and
    no other: [POSITIVE_CLASS] when the owner left a [HELPFUL] reaction,
    wherever it stands; otherwise [NEGATIVE_CLASS] when the owner left a
    [DISAGREE_WITH_TAGS] reaction; otherwise none. *)
Theorem implicit_opinion_helpful_wins (te_json : ThreatUpdateJSON)
    (r : FBThreatExchangeIndicatorRecord) (o : Z) :
  from_threatexchange_json te_json = Some r →
  (∀ td, td ∈ descriptors_data te_json → td_owner_id td ≠ o) →
  opinions_of_owner o (opinions r) =
    match implicit_verdict o (all_reactions (descriptors_data te_json)) with
    | Some c => [implicit_opinion o c]
    | None => []
    end.
Proof.
  intros (_ & Hops & _)%from_threatexchange_json_Some Hno.
  rewrite Hops, opinions_of_owner_values by apply keyed_by_owner_all_opinions.
  rewrite dict_get_all_opinions.
  destruct (last_descriptor_of o (descriptors_data te_json)) as [td|] eqn:Hlast.
  - exfalso. assert (is_Some (last_descriptor_of o (descriptors_data te_json))) as Hs by (by eexists).
    apply last_descriptor_of_is_Some in Hs as (td' & Hin & Ho). by apply (Hno td').
  - rewrite dict_get_implicit_verdict. by destruct (implicit_verdict _ _).
Qed.

Lemma implicit_opinion_helpful_wins_witness :
  let r := IndicatorRecord [ Opinion 5 POSITIVE_CLASS [] (Some 1);
                             Opinion 7 POSITIVE_CLASS [] (Some (-1)) ] in
  from_threatexchange_json disagree_then_helpful = Some r
  ∧ (∀ td, td ∈ descriptors_data disagree_then_helpful → td_owner_id td ≠ 7)
  ∧ opinions_of_owner 7 (opinions r) = [implicit_opinion 7 POSITIVE_CLASS].
Proof.
  intros r.
  assert (∀ td, td ∈ descriptors_data disagree_then_helpful → td_owner_id td ≠ 7) as Hno.
  { intros td Htd. apply list_elem_of_singleton in Htd. by subst td. }
  split_and!; [reflexivity | exact Hno |].
  apply (implicit_opinion_helpful_wins disagree_then_helpful r 7 eq_refl Hno).
Defined.

(** C2, as worded, fails: with [DISAGREE_WITH_TAGS] seen first and [HELPFUL]
    second from owner 7, the first-seen reading gives [NEGATIVE_CLASS] while
    the parse records [POSITIVE_CLASS]. *)
Lemma first_seen_does_not_win :
  ¬ (∀ (te_json : ThreatUpdateJSON) (r : FBThreatExchangeIndicatorRecord) (o : Z),
       from_threatexchange_json te_json = Some r →
       (∀ td, td ∈ descriptors_data te_json → td_owner_id td ≠ o) →
       opinions_of_owner o (opinions r) =
         match first_seen_verdict o (all_reactions (descriptors_data te_json)) with
         | Some c => [implicit_opinion o c]
         | None => []
         end).
Proof.
  intros H.
  specialize (H disagree_then_helpful _ 7 eq_refl).
  assert (∀ td, td ∈ descriptors_data disagree_then_helpful → td_owner_id td ≠ 7) as Hno.
  { intros td Htd. apply list_elem_of_singleton in Htd. by subst td. }
  specialize (H Hno). vm_compute in H. discriminate H.
Qed.

(** ** The delta fetch loop *)

Lemma max_time_nonneg ts : 0 ≤ max_time ts.
Proof. unfold max_time. induction ts; simpl; lia. Qed.

Lemma max_time_app ts1 ts2 : max_time (ts1 ++ ts2) = Z.max (max_time ts1) (max_time ts2).
Proof.
  unfold max_time. induction ts1 as [|t ts1 IH]; simpl.
  - pose proof (max_time_nonneg ts2). unfold max_time in *. lia.
  - rewrite IH. lia.
Qed.

Lemma max_time_upper ts t : t ∈ ts → t ≤ max_time ts.
Proof.
  unfold max_time. induction ts as [|t' ts IH]; simpl.
  - intros H. by apply not_elem_of_nil in H.
  - intros [->|Hin]%elem_of_cons; [lia|]. specialize (IH Hin). lia.
Qed.

Lemma max_time_attained ts : max_time ts = 0 ∨ max_time ts ∈ ts.
Proof.
  unfold max_time. induction ts as [|t ts IH]; simpl; [by left|].
  destruct (Z.max_spec t (foldr Z.max 0 ts)) as [[_ ->]|[_ ->]].
  - destruct IH as [IH|IH]; [by left | right; apply elem_of_cons; by right].
  - right. apply elem_of_cons. by left.
Qed.

Lemma consume_page_eq batch highest_time fetch :
  0 ≤ highest_time →
  consume_page (batch, highest_time) fetch =
    (batch ++ fetch, Z.max highest_time (max_time (time <$> fetch))).
Proof.
  unfold consume_page. revert batch highest_time.
  induction fetch as [|u fetch IH]; intros batch hi Hhi; csimpl.
  - rewrite app_nil_r. f_equal. unfold max_time. simpl. lia.
  - rewrite IH by lia. f_equal.
    + by rewrite <-app_assoc.
    + unfold max_time. simpl. lia.
Qed.

Lemma length_fetch_loop type_mapping clock n batch highest_time cursor :
  length (fetch_loop type_mapping clock n batch highest_time cursor) = length cursor.
Proof.
  revert n batch highest_time.
  induction cursor as [|fetch cursor IH]; intros n batch hi; simpl; [done|].
  destruct (consume_page (batch, hi) fetch) as [batch' hi']. simpl. by rewrite IH.
Qed.

Lemma fetch_loop_lookup type_mapping clock n batch highest_time cursor k delta :
  0 ≤ highest_time →
  fetch_loop type_mapping clock n batch highest_time cursor !! k = Some delta →
  delta =
    (batch_updates type_mapping (batch ++ batch_upto k cursor),
     new_checkpoint (clock (n + k)%nat)
       (Z.max highest_time (max_time (time <$> batch_upto k cursor)))).
Proof.
  unfold batch_upto. revert n batch highest_time k.
  induction cursor as [|fetch cursor IH]; intros n batch hi k Hhi; simpl; [done|].
  rewrite consume_page_eq by done.
  destruct k as [|k]; simpl.
  - intros [= <-]. by rewrite !app_nil_r, Nat.add_0_r.
  - intros Hk. apply IH in Hk; [|pose proof (max_time_nonneg (time <$> fetch)); lia].
    subst delta. rewrite <-app_assoc, fmap_app, max_time_app.
    replace (S n + k)%nat with (n + S k)%nat by lia.
    by rewrite Z.max_assoc.
Qed.

Lemma fetch_iter_inr self clock supported_signal_types collab checkpoint deltas :
  fetch_iter self clock supported_signal_types collab checkpoint = inr deltas →
  ∃ a, api self = inr a
       ∧ deltas =
           fetch_loop (_make_indicator_type_mapping supported_signal_types) clock 0 [] 0
             (get_threat_updates a (privacy_group collab) (update_time <$> checkpoint) 100).
Proof.
  unfold fetch_iter. destruct (api self) as [e|a]; [done|].
  intros [= <-]. by exists a.
Qed.

Lemma fetch_iter_lookup self clock supported_signal_types collab checkpoint deltas k delta :
  fetch_iter self clock supported_signal_types collab checkpoint = inr deltas →
  deltas !! k = Some delta →
  ∃ a, api self = inr a
       ∧ let cursor :=
           get_threat_updates a (privacy_group collab) (update_time <$> checkpoint) 100 in
         delta =
           (batch_updates (_make_indicator_type_mapping supported_signal_types)
              (batch_upto k cursor),
            new_checkpoint (clock k) (max_time (time <$> batch_upto k cursor))).
Proof.
  intros (a & Ha & ->)%fetch_iter_inr Hk. exists a. split; [done|]. simpl.
  apply fetch_loop_lookup in Hk; [|done]. rewrite Hk. simpl.
  f_equal. f_equal. pose proof (max_time_nonneg (time <$> batch_upto k
    (get_threat_updates a (privacy_group collab) (update_time <$> checkpoint) 100))). lia.
Qed.

Lemma elem_of_concat {A} (x : A) (ls : list (list A)) :
  x ∈ concat ls ↔ ∃ l, x ∈ l ∧ l ∈ ls.
Proof.
  rewrite list_elem_of_In, in_concat. split.
  - intros (l & Hl & Hx). exists l. by rewrite !list_elem_of_In.
  - intros (l & Hx & Hl). exists l. by rewrite <-!list_elem_of_In.
Qed.

Lemma batch_upto_mono i j cursor u :
  (i ≤ j)%nat → u ∈ batch_upto i cursor → u ∈ batch_upto j cursor.
Proof.
  unfold batch_upto. intros Hij Hu.
  apply elem_of_concat in Hu as (page & Hu & Hpage).
  apply elem_of_concat. exists page. split; [done|].
  apply list_elem_of_lookup in Hpage as (n & Hn).
  apply lookup_take_Some in Hn as [Hn Hlt].
  apply list_elem_of_lookup. exists n. apply lookup_take_Some. split; [done | lia].
Qed.

Lemma max_time_mono ts1 ts2 :
  (∀ t, t ∈ ts1 → t ∈ ts2) → max_time ts1 ≤ max_time ts2.
Proof.
  intros Hsub. destruct (max_time_attained ts1) as [->|Hin].
  - apply max_time_nonneg.
  - by apply max_time_upper, Hsub.
Qed.

(** C3, as the code has it.  Within one invocation of [fetch_iter] the
    watermark of the [k]-th delta is the maximum of 0 and the update times of
    the whole batch accumulated so far, and it never decreases from one delta
    to a later one.  Against the checkpoint a fetch is resumed from, the
    watermark is no smaller as soon as the batch holds an update that is no
    older than that checkpoint. *)
Theorem watermark_is_running_max
    (self : FBThreatExchangeSignalExchangeAPI) (clock : nat → Q)
    (supported_signal_types : list SignalType) (collab : FBThreatExchangeCollabConfig)
    (checkpoint : option FBThreatExchangeCheckpoint) (deltas : list ThreatExchangeDelta) :
  fetch_iter self clock supported_signal_types collab checkpoint = inr deltas →
  ∃ a, api self = inr a ∧
    let cursor :=
      get_threat_updates a (privacy_group collab) (update_time <$> checkpoint) 100 in
    length deltas = length cursor
    ∧ (∀ k d, deltas !! k = Some d →
         update_time d.2 = max_time (time <$> batch_upto k cursor)
         ∧ (∀ u, u ∈ batch_upto k cursor → time u ≤ update_time d.2)
         ∧ (update_time d.2 = 0
            ∨ ∃ u, u ∈ batch_upto k cursor ∧ time u = update_time d.2))
    ∧ (∀ i j di dj, (i ≤ j)%nat → deltas !! i = Some di → deltas !! j = Some dj →
         update_time di.2 ≤ update_time dj.2)
    ∧ (∀ cp k d u, checkpoint = Some cp → deltas !! k = Some d →
         u ∈ batch_upto k cursor → update_time cp ≤ time u →
         update_time cp ≤ update_time d.2).
Proof.
  intros Hfetch. pose proof Hfetch as (a & Ha & Hdeltas)%fetch_iter_inr.
  exists a. split; [done|]. intros cursor.
  assert (∀ k d, deltas !! k = Some d →
            update_time d.2 = max_time (time <$> batch_upto k cursor)) as Hwm.
  { intros k d Hk.
    destruct (fetch_iter_lookup _ _ _ _ _ _ _ _ Hfetch Hk) as (a' & Ha' & Hd).
    assert (a' = a) as -> by congruence. simpl in Hd. by rewrite Hd. }
  assert (∀ k d u, deltas !! k = Some d → u ∈ batch_upto k cursor →
            time u ≤ update_time d.2) as Hupper.
  { intros k d u Hk Hu. rewrite (Hwm _ _ Hk).
    apply max_time_upper, list_elem_of_fmap. by exists u. }
  split_and!.
  - rewrite Hdeltas. apply length_fetch_loop.
  - intros k d Hk. split_and!; [by apply Hwm | intros u; by apply Hupper |].
    rewrite (Hwm _ _ Hk).
    destruct (max_time_attained (time <$> batch_upto k cursor)) as [?|Hin]; [by left|].
    right. apply list_elem_of_fmap in Hin as (u & Hu & Hin). by exists u.
  - intros i j di dj Hij Hi Hj. rewrite (Hwm _ _ Hi), (Hwm _ _ Hj).
    apply max_time_mono. intros t (u & -> & Hu)%list_elem_of_fmap.
    apply list_elem_of_fmap. exists u. split; [done|]. by eapply batch_upto_mono.
  - intros cp k d u _ Hk Hu Hle. specialize (Hupper _ _ _ Hk Hu). lia.
Qed.

Lemma watermark_is_running_max_witness :
  let deltas : list ThreatExchangeDelta :=
    [([(("HASH_MD5", "abc123")%string, None)], Checkpoint 9 0)] in
  fetch_iter quiet_exchange midnight [] sample_collab None = inr deltas
  ∧ (∀ k d, deltas !! k = Some d →
       update_time d.2 =
         max_time (time <$> batch_upto k
                     [[update_at 5; update_at 3; update_at 9; update_at 7]]))
  ∧ max_time [5; 3; 9; 7] = 9.
Proof.
  intros deltas. split; [reflexivity|]. split; [|reflexivity].
  destruct (watermark_is_running_max quiet_exchange midnight [] sample_collab None
              deltas eq_refl) as (a & Ha & _ & Hwm & _).
  injection Ha as <-. intros k d Hk. exact (proj1 (Hwm k d Hk)).
Defined.

(** C3, as worded, fails across invocations: the checkpoint emitted by a
    first fetch has watermark 9, and the fetch resumed from it, served one
    empty page, emits a checkpoint with watermark 0. *)
Lemma watermark_regresses_on_resume :
  ¬ (∀ (self : FBThreatExchangeSignalExchangeAPI) (clock : nat → Q)
       (supported_signal_types : list SignalType) (collab : FBThreatExchangeCollabConfig)
       (deltas0 deltas1 : list ThreatExchangeDelta) (d0 d1 : ThreatExchangeDelta),
       fetch_iter self clock supported_signal_types collab None = inr deltas0 →
       last deltas0 = Some d0 →
       fetch_iter self clock supported_signal_types collab (Some d0.2) = inr deltas1 →
       d1 ∈ deltas1 →
       update_time d0.2 ≤ update_time d1.2).
Proof.
  intros H.
  specialize (H quiet_exchange midnight [] sample_collab _ _ _
                ([], Checkpoint 0 0) eq_refl eq_refl eq_refl).
  simpl in H. assert (9 ≤ 0) as Hle; [|lia].
  apply H. apply list_elem_of_singleton. reflexivity.
Qed.

(** ** The mapping of a delta *)

Lemma batch_updates_assign_all type_mapping batch :
  batch_updates type_mapping batch =
    assign_all update_key (λ u, _indicator_applies u type_mapping) batch [].
Proof. reflexivity. Qed.

Lemma _indicator_applies_None u type_mapping :
  _indicator_applies u type_mapping = None ↔ no_record_case u type_mapping.
Proof.
  unfold _indicator_applies, no_record_case.
  destruct (dict_get (threat_type u) type_mapping) as [pst|]; [|split; [by left | done]].
  destruct (from_threatexchange_json u) as [ind|]; [|split; [right; by left | done]].
  destruct (dict_contains None pst) eqn:Hw.
  { split; [done|]. intros [?|[?|(pst' & ind' & [= <-] & [= <-] & ? & ?)]]; congruence. }
  destruct (any_tag_declared pst (opinions ind)) eqn:Hany.
  { split; [done|]. intros [?|[?|(pst' & ind' & [= <-] & [= <-] & ? & ?)]]; congruence. }
  split; [|done]. intros _. right. right. by exists pst, ind.
Qed.

(** C4. One delta is emitted per page.  The mapping of the [k]-th delta has
    exactly one entry per distinct key of the whole accumulated batch; the entry's value is what
    [_indicator_applies] gives for the last update of the batch with that key;
    and when that last update falls under a no-record case the key is present
    and maps to [None]. *)
Theorem delta_maps_whole_batch
    (self : FBThreatExchangeSignalExchangeAPI) (clock : nat → Q)
    (supported_signal_types : list SignalType) (collab : FBThreatExchangeCollabConfig)
    (checkpoint : option FBThreatExchangeCheckpoint) (deltas : list ThreatExchangeDelta)
    (k : nat) (delta : ThreatExchangeDelta) :
  fetch_iter self clock supported_signal_types collab checkpoint = inr deltas →
  deltas !! k = Some delta →
  ∃ a, api self = inr a ∧
    let batch :=
      batch_upto k
        (get_threat_updates a (privacy_group collab) (update_time <$> checkpoint) 100) in
    let type_mapping := _make_indicator_type_mapping supported_signal_types in
    length deltas =
      length (get_threat_updates a (privacy_group collab) (update_time <$> checkpoint) 100)
    ∧ NoDup (dict_keys delta.1)
    ∧ (∀ key, key ∈ dict_keys delta.1 ↔ ∃ u, u ∈ batch ∧ update_key u = key)
    ∧ (∀ key, dict_get key delta.1 =
                (λ u, _indicator_applies u type_mapping) <$> last_update_with key batch)
    ∧ (∀ u, last_update_with (update_key u) batch = Some u →
            no_record_case u type_mapping →
            update_key u ∈ dict_keys delta.1
            ∧ dict_get (update_key u) delta.1 = Some None).
Proof.
  intros Hfetch Hk.
  destruct (fetch_iter_lookup _ _ _ _ _ _ _ _ Hfetch Hk) as (a & Ha & Hd).
  exists a. split; [done|]. simpl in Hd. intros batch type_mapping.
  fold batch type_mapping in Hd. rewrite Hd. simpl.
  rewrite batch_updates_assign_all.
  assert (∀ key, dict_get key
            (assign_all update_key (λ u, _indicator_applies u type_mapping) batch []) =
            (λ u, _indicator_applies u type_mapping) <$> last_update_with key batch) as Hget.
  { intros key. rewrite dict_get_assign_all. unfold last_update_with.
    by destruct (last _). }
  split_and!.
  - apply fetch_iter_inr in Hfetch as (a' & Ha' & ->).
    assert (a' = a) as -> by congruence. apply length_fetch_loop.
  - apply dict_keys_assign_all_NoDup, NoDup_nil_2.
  - intros key. rewrite dict_keys_assign_all. split.
    + intros [Hnil|?]; [by apply not_elem_of_nil in Hnil | done].
    + by right.
  - exact Hget.
  - intros u Hlast Hcase. apply _indicator_applies_None in Hcase.
    assert (dict_get (update_key u)
              (assign_all update_key (λ u, _indicator_applies u type_mapping) batch [])
            = Some None) as Hnone by (by rewrite Hget, Hlast; simpl; rewrite Hcase).
    split; [|done]. apply dict_get_is_Some. by rewrite Hnone.
Qed.

Lemma delta_maps_whole_batch_witness :
  let delta : ThreatExchangeDelta :=
    ([ (("HASH_VIDEO_MD5", "abc123")%string, None);
       (("IP_ADDRESS", "10.0.0.1")%string, None);
       (("HASH_MD5", "d41d8")%string, None);
       (("HASH_MD5", "0cc17")%string,
        Some (IndicatorRecord [Opinion 11 NEGATIVE_CLASS ["media_type_video"] (Some 4)])) ],
     Checkpoint 7 0) in
  let first : ThreatExchangeDelta :=
    ([ (("HASH_VIDEO_MD5", "abc123")%string,
        Some (IndicatorRecord [Opinion 10 POSITIVE_CLASS ["t1"] (Some 1)]));
       (("IP_ADDRESS", "10.0.0.1")%string, None);
       (("HASH_MD5", "d41d8")%string, None);
       (("HASH_MD5", "0cc17")%string,
        Some (IndicatorRecord [Opinion 11 NEGATIVE_CLASS ["media_type_video"] (Some 4)])) ],
     Checkpoint 6 0) in
  let signal_types := [video_md5; tagged_md5; plain_text] in
  fetch_iter paged_exchange midnight signal_types sample_collab None = inr [first; delta]
  ∧ [first; delta] !! 1%nat = Some delta
  ∧ NoDup (dict_keys delta.1)
  ∧ dict_get (update_key video_delete) delta.1 = Some None.
Proof.
  intros delta first signal_types.
  assert (fetch_iter paged_exchange midnight signal_types sample_collab None
          = inr [first; delta]) as Hfetch by reflexivity.
  assert ([first; delta] !! 1%nat = Some delta) as Hk by reflexivity.
  split_and!; [exact Hfetch | exact Hk | |];
    destruct (delta_maps_whole_batch paged_exchange midnight signal_types sample_collab
                None [first; delta] 1 delta Hfetch Hk)
      as (a & Ha & _ & Hnd & _ & _ & Hnone).
  - exact Hnd.
  - injection Ha as <-. apply (Hnone video_delete); [reflexivity|].
    right. left. reflexivity.
Defined.

(** ** Signal projection: examples *)

(** The end-to-end scenario of the specification, fetch side. *)
Example fetch_video_md5 :
  fetch_iter {| _api := Some {| app_id := 1;
                                get_threat_updates := λ _ _ _, [[video_update]] |} |}
    midnight [video_md5] sample_collab None
  = inr [([(("HASH_VIDEO_MD5", "abc123")%string,
            Some (IndicatorRecord [Opinion 10 POSITIVE_CLASS ["t1"] (Some 1)]))],
          Checkpoint 5 0)].
Proof. reflexivity. Qed.

(** Without an app token the fetch fails with the configuration error. *)
Example fetch_without_token :
  fetch_iter {| _api := None |} midnight [video_md5] sample_collab None
  = inl (Exception "App Developer token not configured.").
Proof. reflexivity. Qed.

(** The end-to-end scenario of the specification. *)
Example project_video_md5 :
  naive_convert_to_signal_type
    [[Opinion 10 POSITIVE_CLASS ["t1"] (Some 1)]] [video_md5]
    [(("HASH_VIDEO_MD5", "abc123")%string, Some 0%nat)]
  = ([[Opinion 10 POSITIVE_CLASS ["t1"] (Some 1)]], [(1%nat, [("abc123"%string, 0%nat)])]).
Proof. reflexivity. Qed.

(** A tagged entry narrows the record to a new object; the input record stays. *)
Example project_tagged_md5 :
  naive_convert_to_signal_type
    [[exact_tag; shorter_tag; longer_tag]] [tagged_md5]
    [(("HASH_MD5", "0cc17")%string, Some 0%nat)]
  = ([[exact_tag; shorter_tag; longer_tag]; [exact_tag; shorter_tag]],
     [(2%nat, [("0cc17"%string, 1%nat)])]).
Proof. reflexivity. Qed.

(** Without the exact tag the entry is not entered at all. *)
Example project_tagged_md5_gate :
  naive_convert_to_signal_type
    [[shorter_tag; longer_tag]] [tagged_md5]
    [(("HASH_MD5", "0cc17")%string, Some 0%nat)]
  = ([[shorter_tag; longer_tag]], []).
Proof. reflexivity. Qed.

(** Two remote records that collapse onto one signal: the first input record
    is the object stored in the result, and the second is merged into it. *)
Example project_tagged_url :
  naive_convert_to_signal_type
    [[uri_opinion]; [raw_uri_opinion]] [tagged_url]
    [(("URI", "x.example")%string, Some 0%nat); (("RAW_URI", "x.example")%string, Some 1%nat)]
  = ([[uri_opinion; raw_uri_opinion]; [raw_uri_opinion]],
     [(4%nat, [("x.example"%string, 0%nat)])]).
Proof. reflexivity. Qed.

(** ** Signal projection: the tag filter and the merge *)

Lemma elem_of_applicable_opinions tag ops o :
  o ∈ applicable_opinions tag ops ↔
  o ∈ ops ∧ ∃ t, t ∈ tags o ∧ str_in t tag = true.
Proof.
  unfold applicable_opinions. rewrite list_elem_of_In, filter_In, <-list_elem_of_In.
  rewrite existsb_exists. split.
  - intros [Ho (t & Ht & Hin)]. split; [done|]. exists t. by rewrite list_elem_of_In.
  - intros [Ho (t & Ht & Hin)]. split; [done|]. exists t. by rewrite <-list_elem_of_In.
Qed.

Lemma filter_length_eq {A} (f : A → bool) (l : list A) :
  length (List.filter f l) = length l → List.filter f l = l.
Proof.
  induction l as [|x l IH]; simpl; [done|].
  destruct (f x); simpl.
  - intros [= Hlen]. by rewrite IH.
  - intros Hlen. pose proof (List.filter_length_le f l). lia.
Qed.

Lemma filter_all {A} (f : A → bool) (l : list A) :
  Forall (λ x, f x = true) l → List.filter f l = l.
Proof.
  induction 1 as [|x l Hx Hl IH]; simpl; [done|]. by rewrite Hx, IH.
Qed.

Lemma applicable_opinions_exact tag ops :
  Forall (λ o, tag ∈ tags o) ops → applicable_opinions tag ops = ops.
Proof.
  intros Hall. apply filter_all. eapply Forall_impl; [exact Hall|].
  intros o Ho. apply existsb_exists. exists tag.
  split; [by apply list_elem_of_In | apply str_in_refl].
Qed.

Lemma opinions_at_alloc_old (h : heap) ops l :
  (l < length h)%nat → opinions_at (alloc h ops).1 l = opinions_at h l.
Proof. intros Hl. unfold opinions_at, alloc. simpl. by rewrite lookup_app_l. Qed.

Lemma opinions_at_alloc_new (h : heap) ops :
  opinions_at (alloc h ops).1 (alloc h ops).2 = ops.
Proof. unfold opinions_at, alloc. simpl. by rewrite list_lookup_middle. Qed.

Lemma opinions_at_valid (h : heap) l : opinions_at h l ≠ [] → (l < length h)%nat.
Proof.
  unfold opinions_at. intros Hne. destruct (h !! l) eqn:E; [|done].
  by eapply lookup_lt_Some.
Qed.

(** No opinion survives the filter: nothing is inserted and nothing is merged. *)
Lemma merge_record_skip (h : heap) tx_record tag existing :
  applicable_opinions tag (opinions_at h tx_record) = [] →
  _merge_record_for_signal_type h tx_record (Some tag) existing = (h, None).
Proof. intros Happ. unfold _merge_record_for_signal_type. by rewrite Happ. Qed.

(** Some opinion survives and the signal has no record yet: the record to
    insert holds exactly the surviving opinions; it is the input object itself
    when every opinion survived. *)
Lemma merge_record_insert (h : heap) tx_record tag :
  applicable_opinions tag (opinions_at h tx_record) ≠ [] →
  ∃ h' l,
    _merge_record_for_signal_type h tx_record (Some tag) None = (h', Some l)
    ∧ opinions_at h' l = applicable_opinions tag (opinions_at h tx_record)
    ∧ (∀ l', (l' < length h)%nat → opinions_at h' l' = opinions_at h l')
    ∧ (applicable_opinions tag (opinions_at h tx_record) = opinions_at h tx_record →
       h' = h ∧ l = tx_record).
Proof.
  intros Hne. unfold _merge_record_for_signal_type.
  destruct (applicable_opinions tag (opinions_at h tx_record)) as [|o app] eqn:Happ; [done|].
  case_bool_decide as Hlen.
  - eexists _, _. split; [reflexivity|]. split_and!.
    + apply opinions_at_alloc_new.
    + intros l' Hl'. by apply opinions_at_alloc_old.
    + intros Heq. by rewrite <-Heq in Hlen.
  - eexists _, _. split; [reflexivity|].
    assert (applicable_opinions tag (opinions_at h tx_record) = opinions_at h tx_record)
      as Hall.
    { apply filter_length_eq.
      change (length (applicable_opinions tag (opinions_at h tx_record))
              = length (opinions_at h tx_record)).
      rewrite Happ.
      destruct (decide (length (o :: app) = length (opinions_at h tx_record))); [done|].
      by destruct Hlen. }
    rewrite Happ in Hall. by split_and!.
Qed.

(** Some opinion survives and the signal already has a record: the surviving
    opinions are appended to that record, in place. *)
Lemma merge_record_existing (h : heap) tx_record tag existing :
  applicable_opinions tag (opinions_at h tx_record) ≠ [] →
  (existing < length h)%nat →
  ∃ h',
    _merge_record_for_signal_type h tx_record (Some tag) (Some existing) = (h', None)
    ∧ opinions_at h' existing =
        opinions_at h existing ++ applicable_opinions tag (opinions_at h tx_record)
    ∧ (∀ l', (l' < length h)%nat → l' ≠ existing → opinions_at h' l' = opinions_at h l').
Proof.
  intros Hne He. unfold _merge_record_for_signal_type.
  destruct (applicable_opinions tag (opinions_at h tx_record)) as [|o app] eqn:Happ; [done|].
  case_bool_decide as Hlen.
  - eexists. split; [reflexivity|]. split.
    + rewrite opinions_at_merge_self by (simpl; rewrite length_app; lia).
      pose proof (opinions_at_alloc_old h (o :: app) existing He) as Hold.
      pose proof (opinions_at_alloc_new h (o :: app)) as Hnew.
      simpl in Hold, Hnew. by rewrite Hold, Hnew.
    + intros l' Hl' Hne'. rewrite opinions_at_merge_other by done.
      by apply opinions_at_alloc_old.
  - eexists. split; [reflexivity|].
    assert (applicable_opinions tag (opinions_at h tx_record) = opinions_at h tx_record)
      as Hall.
    { apply filter_length_eq.
      change (length (applicable_opinions tag (opinions_at h tx_record))
              = length (opinions_at h tx_record)).
      rewrite Happ.
      destruct (decide (length (o :: app) = length (opinions_at h tx_record))); [done|].
      by destruct Hlen. }
    rewrite Happ in Hall. split.
    + rewrite opinions_at_merge_self by done. by rewrite Hall.
    + intros l' _ Hne'. by apply opinions_at_merge_other.
Qed.

Lemma project_signal_type_skip type_str signal_str metadata tag (h : heap)
    (ret : Projection) tx_s_type :
  applicable_opinions tag (opinions_at h metadata) = [] →
  ∃ ret',
    project_signal_type type_str signal_str metadata (Some tag) (h, ret) tx_s_type
      = (h, ret')
    ∧ ∀ s_type s, projection_get s_type s ret' = projection_get s_type s ret.
Proof.
  intros Happ. unfold project_signal_type.
  destruct (dict_get (st_id tx_s_type) ret) as [inner|] eqn:Hinner.
  - rewrite merge_record_skip by done. by exists ret.
  - rewrite merge_record_skip by done. eexists. split; [reflexivity|].
    intros s_type s. unfold projection_get. rewrite dict_get_set.
    destruct (decide (st_id tx_s_type = s_type)) as [<-|Hne]; [|done].
    by rewrite Hinner.
Qed.

Lemma elem_of_indicator_tags_of tag ops :
  tag ∈ indicator_tags_of ops ↔ ∃ o, o ∈ ops ∧ tag ∈ tags o.
Proof.
  unfold indicator_tags_of. rewrite elem_of_concat. split.
  - intros (l & Hl & (o & -> & Ho)%list_elem_of_fmap). by exists o.
  - intros (o & Ho & Ht). exists (tags o). split; [done|].
    apply list_elem_of_fmap. by exists o.
Qed.

Lemma project_tag_gate type_str signal_str metadata indicator_tags
    (st : list (list FBThreatExchangeOpinion) * Projection) tag s_types :
  tag ∉ indicator_tags →
  project_tag type_str signal_str metadata indicator_tags st (Some tag, s_types) = st.
Proof. intros Hnot. unfold project_tag. by rewrite bool_decide_true. Qed.

(** ** Signal projection: aliasing of the input records *)

Lemma mapping_two_tagged tx_s_type type1 type2 tag :
  INDICATOR_TYPE tx_s_type = Some (DeclDict [(type1, Some tag); (type2, Some tag)]) →
  type1 ≠ type2 →
  _make_indicator_type_mapping [tx_s_type] =
    [(type1, [(Some tag, [tx_s_type])]); (type2, [(Some tag, [tx_s_type])])].
Proof.
  intros Hdecl Hne. unfold _make_indicator_type_mapping. simpl. rewrite Hdecl.
  unfold declared_types, dict_of_items. simpl.
  rewrite (decide_False (P := type2 = type1)) by done. simpl.
  unfold mapping_append. simpl.
  rewrite (decide_False (P := type2 = type1)) by done. simpl.
  by rewrite (decide_False (P := type2 = type1)) by done.
Qed.

Lemma project_entry_single mapping type_str signal_str metadata tag tx_s_type
    (st : list (list FBThreatExchangeOpinion) * Projection) :
  dict_get type_str mapping = Some [(Some tag, [tx_s_type])] →
  tag ∈ indicator_tags_of (opinions_at st.1 metadata) →
  project_entry mapping st ((type_str, signal_str), Some metadata) =
    project_signal_type type_str signal_str metadata (Some tag) st tx_s_type.
Proof.
  intros Hmap Htag. unfold project_entry. rewrite Hmap. simpl.
  by rewrite bool_decide_false by (by intros Hnot).
Qed.

(** C10. Projection can change a record of its input mapping.  With two
    fetched entries that normalize to the same signal of one signal type,
    where every opinion of the first record carries the candidate tag (so the
    first record itself becomes the stored record) and some opinion of the
    second carries it, the stored record is the first input object and its
    opinion list has been extended in place by the second record's surviving
    opinions. *)
Theorem projection_mutates_input_record (h : heap) (tx_s_type : SignalType)
    (type1 type2 signal1 signal2 tag : string) (l1 l2 : loc) :
  INDICATOR_TYPE tx_s_type = Some (DeclDict [(type1, Some tag); (type2, Some tag)]) →
  type1 ≠ type2 →
  normalize_fb_threatexchange_indicator tx_s_type type1 signal1 (Some tag) =
    normalize_fb_threatexchange_indicator tx_s_type type2 signal2 (Some tag) →
  opinions_at h l1 ≠ [] →
  Forall (λ o, tag ∈ tags o) (opinions_at h l1) →
  (∃ o, o ∈ opinions_at h l2 ∧ tag ∈ tags o) →
  let fetched := [((type1, signal1), Some l1); ((type2, signal2), Some l2)] in
  let out := naive_convert_to_signal_type h [tx_s_type] fetched in
  projection_get (st_id tx_s_type)
    (normalize_fb_threatexchange_indicator tx_s_type type1 signal1 (Some tag)) out.2
    = Some l1
  ∧ opinions_at out.1 l1 =
      opinions_at h l1 ++ applicable_opinions tag (opinions_at h l2)
  ∧ opinions_at out.1 l1 ≠ opinions_at h l1.
Proof.
  intros Hdecl Htypes Hnorm Hne1 Hall1 (o2 & Ho2 & Htag2) fetched out.
  assert (applicable_opinions tag (opinions_at h l2) ≠ []) as Hne2.
  { intros Hnil. assert (o2 ∈ applicable_opinions tag (opinions_at h l2)) as Hin.
    { apply elem_of_applicable_opinions. split; [done|]. exists tag.
      split; [done | apply str_in_refl]. }
    rewrite Hnil in Hin. by apply not_elem_of_nil in Hin. }
  assert (tag ∈ indicator_tags_of (opinions_at h l1)) as Hgate1.
  { apply elem_of_indicator_tags_of. destruct (opinions_at h l1) as [|o1 ops1]; [done|].
    exists o1. split; [apply elem_of_cons; by left|]. by apply Forall_cons in Hall1 as [? _]. }
  assert (tag ∈ indicator_tags_of (opinions_at h l2)) as Hgate2.
  { apply elem_of_indicator_tags_of. by exists o2. }
  pose proof (opinions_at_valid h l1 Hne1) as Hl1.
  set (n := normalize_fb_threatexchange_indicator tx_s_type type1 signal1 (Some tag)) in *.
  destruct (merge_record_existing h l2 tag l1 Hne2 Hl1) as (h' & Hm & Hops & _).
  assert (out.1 = h' ∧ out.2 = [(st_id tx_s_type, [(n, l1)])]) as [Hout1 Hout2].
  { subst out fetched. unfold naive_convert_to_signal_type.
    rewrite (mapping_two_tagged tx_s_type type1 type2 tag Hdecl Htypes). cbn [fold_left].
    rewrite (project_entry_single _ type1 signal1 l1 tag tx_s_type (h, [])); first last.
    { exact Hgate1. }
    { simpl. by rewrite decide_True. }
    assert (project_signal_type type1 signal1 l1 (Some tag) (h, []) tx_s_type
            = (h, [(st_id tx_s_type, [(n, l1)])])) as ->.
    { unfold project_signal_type. cbn [dict_get].
      destruct (merge_record_insert h l1 tag) as (h1 & l & Hm1 & _ & _ & Halias).
      { by rewrite applicable_opinions_exact. }
      destruct Halias as [-> ->]; [by apply applicable_opinions_exact|].
      rewrite Hm1. simpl. by rewrite decide_True. }
    rewrite (project_entry_single _ type2 signal2 l2 tag tx_s_type
               (h, [(st_id tx_s_type, [(n, l1)])])); first last.
    { exact Hgate2. }
    { simpl. rewrite decide_False by done. by rewrite decide_True. }
    unfold project_signal_type. simpl dict_get. rewrite decide_True by done.
    rewrite <-Hnorm. fold n. simpl dict_get. rewrite decide_True by done.
    by rewrite Hm. }
  split_and!.
  - rewrite Hout2. unfold projection_get. simpl. rewrite decide_True by done.
    simpl. by rewrite decide_True.
  - by rewrite Hout1.
  - rewrite Hout1, Hops. intros Heq.
    apply (f_equal length) in Heq. rewrite length_app in Heq.
    destruct (applicable_opinions tag (opinions_at h l2)); [done|]. simpl in Heq. lia.
Qed.

Lemma projection_mutates_input_record_witness :
  let h : heap := [[uri_opinion]; [raw_uri_opinion]] in
  let fetched : list (string * string * option loc) :=
    [(("URI", "x.example")%string, Some 0%nat);
     (("RAW_URI", "x.example")%string, Some 1%nat)] in
  let out := naive_convert_to_signal_type h [tagged_url] fetched in
  (opinions_at h 0 ≠ []
   ∧ Forall (λ o, "phishing"%string ∈ tags o) (opinions_at h 0)
   ∧ ∃ o, o ∈ opinions_at h 1 ∧ "phishing"%string ∈ tags o)
  ∧ projection_get 4 "x.example" out.2 = Some 0%nat
  ∧ opinions_at out.1 0 = [uri_opinion; raw_uri_opinion]
  ∧ opinions_at out.1 0 ≠ opinions_at h 0.
Proof.
  intros h fetched out.
  assert (opinions_at h 0 ≠ []) as Hne by done.
  assert (Forall (λ o, "phishing"%string ∈ tags o) (opinions_at h 0)) as Hall.
  { repeat constructor. }
  assert (∃ o, o ∈ opinions_at h 1 ∧ "phishing"%string ∈ tags o) as Hex.
  { exists raw_uri_opinion. split; repeat constructor. }
  split; [by split_and!|].
  apply (projection_mutates_input_record h tagged_url "URI" "RAW_URI"
           "x.example" "x.example" "phishing" 0%nat 1%nat
           eq_refl ltac:(done) eq_refl Hne Hall Hex).
Defined.

(** ** Signal projection: a tagged entry *)









(** * Further properties *)

(** ** Checkpoints: creation and staleness *)

Lemma int_of_float_remainder (now : Q) :
  Qnum now - int_of_float now * Z.pos (Qden now) = Z.rem (Qnum now) (Z.pos (Qden now))
  ∧ - Z.pos (Qden now) < Z.rem (Qnum now) (Z.pos (Qden now)) < Z.pos (Qden now).
Proof.
  unfold int_of_float. destruct now as [n d]. cbn [Qnum Qden].
  pose proof (Z.quot_rem' n (Z.pos d)) as Hqr.
  pose proof (Z.rem_bound_abs n (Z.pos d)) as Habs.
  split; [lia|]. lia.
Qed.

Lemma is_stale_unfold (now : Q) (self : FBThreatExchangeCheckpoint) :
  is_stale now self =
    bool_decide (STALE_AFTER * Z.pos (Qden now)
                 < Qnum now - last_fetch_time self * Z.pos (Qden now)).
Proof.
  unfold is_stale, STALE_AFTER, Qle_bool, Qminus, Qplus, Qopp, inject_Z.
  destruct now as [n d]. cbn [Qnum Qden].
  change (Z.pos (d * 1)) with (Z.pos (Pos.mul d 1)). rewrite Pos.mul_1_r.
  case_bool_decide as H;
    destruct (Z.leb_spec ((n * 1 + - last_fetch_time self * Z.pos d) * 1)
                (3600 * 24 * 85 * Z.pos d)); simpl; try done; lia.
Qed.

Lemma Qle_num_den (x y : Q) :
  (x <= y)%Q ↔ Qnum x * Z.pos (Qden y) ≤ Qnum y * Z.pos (Qden x).
Proof. reflexivity. Qed.

(** X1. A checkpoint created when the clock reads [now] is not stale at any
    reading up to 85 days minus one second later, and is stale at every
    reading more than 85 days plus one second later (the second of slack is
    the truncation of the creation time to an integer). *)
Theorem new_checkpoint_staleness (now later : Q) (update_time : Z) :
  ((later - now <= inject_Z (STALE_AFTER - 1))%Q →
     is_stale later (new_checkpoint now update_time) = false)
  ∧ ((inject_Z (STALE_AFTER + 1) <= later - now)%Q →
     is_stale later (new_checkpoint now update_time) = true).
Proof.
  pose proof (int_of_float_remainder now) as [Hrem Hbound].
  rewrite !is_stale_unfold. cbn [last_fetch_time new_checkpoint].
  rewrite !Qle_num_den. unfold Qminus, Qplus, Qopp, inject_Z. cbn [Qnum Qden].
  destruct now as [n d], later as [m e]. cbn [Qnum Qden] in *.
  set (q := int_of_float {| Qnum := n; Qden := d |}) in *.
  rewrite !Pos2Z.inj_mul.
  assert (0 < Z.pos d) as Hd by lia. assert (0 < Z.pos e) as He by lia.
  split; intros H.
  - apply bool_decide_eq_false. nia.
  - apply bool_decide_eq_true. nia.
Qed.

Lemma new_checkpoint_staleness_witness :
  ((100 # 1) - (7 # 2) <= inject_Z (STALE_AFTER - 1))%Q
  ∧ is_stale (100 # 1) (new_checkpoint (7 # 2) 9) = false.
Proof.
  assert (((100 # 1) - (7 # 2) <= inject_Z (STALE_AFTER - 1))%Q) as H by done.
  split; [exact H|].
  exact (proj1 (new_checkpoint_staleness (7 # 2) (100 # 1) 9) H).
Defined.

(** X2. Staleness is monotone: a checkpoint that is stale stays stale as the
    clock advances, and a checkpoint fetched no later than a stale one is
    stale too. *)
Theorem is_stale_monotone (now now' : Q) (self other : FBThreatExchangeCheckpoint) :
  (now <= now')%Q →
  last_fetch_time other ≤ last_fetch_time self →
  is_stale now self = true →
  is_stale now' other = true.
Proof.
  intros Hnow Hlft Hstale. apply is_stale_true. apply is_stale_true in Hstale.
  eapply Qlt_le_trans; [exact Hstale|].
  apply Qplus_le_compat; [done|]. apply Qopp_le_compat. by rewrite <-Zle_Qle.
Qed.

Lemma is_stale_monotone_witness :
  ((8000000 # 1) <= (9000000 # 1))%Q
  ∧ last_fetch_time (Checkpoint 3 5) ≤ last_fetch_time (Checkpoint 0 10)
  ∧ is_stale (8000000 # 1) (Checkpoint 0 10) = true
  ∧ is_stale (9000000 # 1) (Checkpoint 3 5) = true.
Proof.
  assert (((8000000 # 1) <= (9000000 # 1))%Q) as H1 by done.
  assert (last_fetch_time (Checkpoint 3 5) ≤ last_fetch_time (Checkpoint 0 10)) as H2
    by (simpl; lia).
  assert (is_stale (8000000 # 1) (Checkpoint 0 10) = true) as H3 by reflexivity.
  split_and!; [exact H1 | exact H2 | exact H3 |].
  exact (is_stale_monotone _ _ _ _ H1 H2 H3).
Defined.

(** X3. Every checkpoint [fetch_iter] emits records the truncated clock reading
    of the moment it was built, and is not stale at that moment. *)
Theorem fetched_checkpoint_is_fresh
    (self : FBThreatExchangeSignalExchangeAPI) (clock : nat → Q)
    (supported_signal_types : list SignalType) (collab : FBThreatExchangeCollabConfig)
    (checkpoint : option FBThreatExchangeCheckpoint) (deltas : list ThreatExchangeDelta)
    (k : nat) (delta : ThreatExchangeDelta) :
  fetch_iter self clock supported_signal_types collab checkpoint = inr deltas →
  deltas !! k = Some delta →
  last_fetch_time delta.2 = int_of_float (clock k)
  ∧ is_stale (clock k) delta.2 = false.
Proof.
  intros Hfetch Hk.
  destruct (fetch_iter_lookup _ _ _ _ _ _ _ _ Hfetch Hk) as (a & _ & Hd).
  simpl in Hd. rewrite Hd. cbn [snd]. split; [done|].
  pose proof (int_of_float_remainder (clock k)) as [Hrem Hbound].
  rewrite is_stale_unfold. cbn [last_fetch_time new_checkpoint].
  apply bool_decide_eq_false. unfold STALE_AFTER.
  assert (0 < Z.pos (Qden (clock k))) by lia. nia.
Qed.

Lemma fetched_checkpoint_is_fresh_witness :
  let delta : ThreatExchangeDelta :=
    ([(("HASH_MD5", "abc123")%string, None)], Checkpoint 9 0) in
  fetch_iter quiet_exchange midnight [] sample_collab None = inr [delta]
  ∧ [delta] !! 0%nat = Some delta
  ∧ last_fetch_time delta.2 = int_of_float (midnight 0%nat)
  ∧ is_stale (midnight 0%nat) delta.2 = false.
Proof.
  intros delta.
  assert (fetch_iter quiet_exchange midnight [] sample_collab None = inr [delta]) as Hf
    by reflexivity.
  assert ([delta] !! 0%nat = Some delta) as Hk by reflexivity.
  split_and!; [exact Hf | exact Hk | |];
    apply (fetched_checkpoint_is_fresh quiet_exchange midnight [] sample_collab None
             [delta] 0 delta Hf Hk).
Defined.

(** ** Operations that need the API client *)

Lemma report_false_positive_raises self collab s_type signal metadata :
  report_false_positive self collab s_type signal metadata =
    match _api self with
    | None => inl (Exception "App Developer token not configured.")
    | Some _ => inl NotImplementedError
    end.
Proof.
  unfold report_false_positive, get_own_owner_id, api. by destruct (_api self).
Qed.

(** X4. [report_true_positive] and [report_false_positive] never return
    normally: without an app token they fail with the configuration error
    (the owner id is looked up first), with one they fail with
    [NotImplementedError]. *)
Theorem reports_never_succeed
    (self : FBThreatExchangeSignalExchangeAPI) (collab : FBThreatExchangeCollabConfig)
    (s_type : SignalType) (signal : string) (metadata : FBThreatExchangeIndicatorRecord) :
  let failure :=
    match _api self with
    | None => Exception "App Developer token not configured."
    | Some _ => NotImplementedError
    end in
  report_true_positive self collab s_type signal metadata = inl failure
  ∧ report_false_positive self collab s_type signal metadata = inl failure
  ∧ (is_Some (_api self) ↔ ∃ own, get_own_owner_id self collab = inr own).
Proof.
  intros failure. subst failure.
  rewrite report_true_positive_raises, report_false_positive_raises.
  unfold get_own_owner_id, api. destruct (_api self) as [a|]; split_and!; try done.
  - split; [intros _; by eexists | by eexists].
  - split; [by intros [? ?] | by intros [? ?]].
Qed.

(** X5. Without an app token [fetch_iter] fails with the configuration
    error, before the cursor is opened; a fetch that runs to its end
    therefore had a token, and it yielded one delta per page the cursor
    served, none when the cursor served no page. *)
Theorem fetch_iter_failure
    (self : FBThreatExchangeSignalExchangeAPI) (clock : nat → Q)
    (supported_signal_types : list SignalType) (collab : FBThreatExchangeCollabConfig)
    (checkpoint : option FBThreatExchangeCheckpoint) :
  (_api self = None →
     fetch_iter self clock supported_signal_types collab checkpoint
     = inl (Exception "App Developer token not configured."))
  ∧ (∀ deltas,
       fetch_iter self clock supported_signal_types collab checkpoint = inr deltas →
       ∃ a, _api self = Some a
            ∧ length deltas =
                length (get_threat_updates a (privacy_group collab)
                          (update_time <$> checkpoint) 100))
  ∧ (∀ a, _api self = Some a →
          get_threat_updates a (privacy_group collab) (update_time <$> checkpoint) 100 = [] →
          fetch_iter self clock supported_signal_types collab checkpoint = inr []).
Proof.
  split_and!.
  - intros Hnone. unfold fetch_iter, api. by rewrite Hnone.
  - intros deltas (a & Ha & ->)%fetch_iter_inr. exists a. split.
    + unfold api in Ha. destruct (_api self); [by injection Ha as -> | done].
    + apply length_fetch_loop.
  - intros a Ha Hcursor. unfold fetch_iter, api. by rewrite Ha, Hcursor.
Qed.

Lemma fetch_iter_failure_witness :
  fetch_iter {| _api := None |} midnight [video_md5] sample_collab None
  = inl (Exception "App Developer token not configured.").
Proof.
  apply (proj1 (fetch_iter_failure {| _api := None |} midnight [video_md5] sample_collab None)).
  reflexivity.
Defined.

(** ** The keys of successive deltas *)

Lemma dict_keys_set_prefix {K V} `{EqDecision K} (k : K) (v : V) d :
  dict_keys d `prefix_of` dict_keys (dict_set k v d).
Proof.
  rewrite dict_keys_set. destruct (dict_contains k d); [done|]. by apply prefix_app_r.
Qed.

Lemma dict_keys_assign_all_prefix {A K V} `{EqDecision K} (key : A → K) (val : A → V) l d :
  dict_keys d `prefix_of` dict_keys (assign_all key val l d).
Proof.
  unfold assign_all. revert d. induction l as [|a l IH]; intros d; simpl; [done|].
  etrans; [apply dict_keys_set_prefix | apply IH].
Qed.

Lemma assign_all_app {A K V} `{EqDecision K} (key : A → K) (val : A → V) l1 l2 d :
  assign_all key val (l1 ++ l2) d = assign_all key val l2 (assign_all key val l1 d).
Proof. unfold assign_all. apply fold_left_app. Qed.

Lemma batch_upto_split i j cursor :
  (i ≤ j)%nat → ∃ more, batch_upto j cursor = batch_upto i cursor ++ more.
Proof.
  intros Hij. unfold batch_upto.
  exists (concat (drop (S i) (take (S j) cursor))).
  rewrite <-concat_app. f_equal.
  rewrite <-(take_drop (S i) (take (S j) cursor)) at 1.
  f_equal. rewrite take_take. f_equal. lia.
Qed.

(** X6. Within one invocation of [fetch_iter] the keys of an earlier delta
    are a prefix of the keys of every later delta: a key never disappears and
    keeps the position of its first appearance. *)
Theorem delta_keys_grow
    (self : FBThreatExchangeSignalExchangeAPI) (clock : nat → Q)
    (supported_signal_types : list SignalType) (collab : FBThreatExchangeCollabConfig)
    (checkpoint : option FBThreatExchangeCheckpoint) (deltas : list ThreatExchangeDelta)
    (i j : nat) (di dj : ThreatExchangeDelta) :
  fetch_iter self clock supported_signal_types collab checkpoint = inr deltas →
  (i ≤ j)%nat →
  deltas !! i = Some di →
  deltas !! j = Some dj →
  dict_keys di.1 `prefix_of` dict_keys dj.1.
Proof.
  intros Hfetch Hij Hi Hj.
  destruct (fetch_iter_lookup _ _ _ _ _ _ _ _ Hfetch Hi) as (a & Ha & Hdi).
  destruct (fetch_iter_lookup _ _ _ _ _ _ _ _ Hfetch Hj) as (a' & Ha' & Hdj).
  assert (a' = a) as -> by congruence. simpl in Hdi, Hdj. rewrite Hdi, Hdj. cbn [fst].
  destruct (batch_upto_split i j
              (get_threat_updates a (privacy_group collab) (update_time <$> checkpoint) 100)
              Hij) as (more & ->).
  rewrite !batch_updates_assign_all, assign_all_app.
  apply dict_keys_assign_all_prefix.
Qed.

Lemma delta_keys_grow_witness :
  let first : ThreatExchangeDelta :=
    ([ (("HASH_VIDEO_MD5", "abc123")%string, None);
       (("IP_ADDRESS", "10.0.0.1")%string, None);
       (("HASH_MD5", "d41d8")%string, None);
       (("HASH_MD5", "0cc17")%string, None) ], Checkpoint 6 0) in
  let second : ThreatExchangeDelta :=
    ([ (("HASH_VIDEO_MD5", "abc123")%string, None);
       (("IP_ADDRESS", "10.0.0.1")%string, None);
       (("HASH_MD5", "d41d8")%string, None);
       (("HASH_MD5", "0cc17")%string, None) ], Checkpoint 7 0) in
  fetch_iter paged_exchange midnight [] sample_collab None = inr [first; second]
  ∧ (0 ≤ 1)%nat
  ∧ [first; second] !! 0%nat = Some first
  ∧ [first; second] !! 1%nat = Some second
  ∧ dict_keys first.1 `prefix_of` dict_keys second.1.
Proof.
  intros first second.
  assert (fetch_iter paged_exchange midnight [] sample_collab None = inr [first; second])
    as Hf by reflexivity.
  assert ((0 ≤ 1)%nat) as Hij by lia.
  split_and!; [exact Hf | exact Hij | reflexivity | reflexivity |].
  exact (delta_keys_grow paged_exchange midnight [] sample_collab None [first; second]
           0 1 first second Hf Hij eq_refl eq_refl).
Defined.

(** ** Parsing: who holds an opinion, and in which order *)

(** X7. The owners represented in a parsed record are exactly the owners of
    its descriptors together with the owners who left a [HELPFUL] or
    [DISAGREE_WITH_TAGS] reaction. *)
Theorem parsed_owners (te_json : ThreatUpdateJSON) (r : FBThreatExchangeIndicatorRecord)
    (o : Z) :
  from_threatexchange_json te_json = Some r →
  o ∈ owner <$> opinions r ↔
    (∃ td, td ∈ descriptors_data te_json ∧ td_owner_id td = o)
    ∨ has_reaction "HELPFUL" o (all_reactions (descriptors_data te_json)) = true
    ∨ has_reaction "DISAGREE_WITH_TAGS" o (all_reactions (descriptors_data te_json)) = true.
Proof.
  intros (_ & Hops & _)%from_threatexchange_json_Some.
  rewrite Hops, keyed_by_owner_values by apply keyed_by_owner_all_opinions.
  rewrite <-dict_get_is_Some, dict_get_all_opinions, <-last_descriptor_of_is_Some.
  destruct (last_descriptor_of o (descriptors_data te_json)) as [td|].
  - split; [intros _; left; by eexists | intros _; by eexists].
  - rewrite dict_get_implicit_verdict. unfold implicit_verdict.
    destruct (has_reaction "HELPFUL" o _); simpl.
    { split; [intros _; right; by left | intros _; by eexists]. }
    destruct (has_reaction "DISAGREE_WITH_TAGS" o _); simpl.
    { split; [intros _; right; by right | intros _; by eexists]. }
    split; [by intros [? ?] | intros [[? ?]|[?|?]]; done].
Qed.

Lemma parsed_owners_witness :
  let r := IndicatorRecord
             [ Opinion 5 NEGATIVE_CLASS ["t1"] (Some 1);
               Opinion 6 POSITIVE_CLASS ["a"; "z"] (Some 2);
               Opinion 7 POSITIVE_CLASS [] (Some (-1));
               Opinion 8 NEGATIVE_CLASS [] (Some (-1)) ] in
  from_threatexchange_json sample_update = Some r
  ∧ (9 ∈ owner <$> opinions r ↔
      (∃ td, td ∈ descriptors_data sample_update ∧ td_owner_id td = 9)
      ∨ has_reaction "HELPFUL" 9 (all_reactions (descriptors_data sample_update)) = true
      ∨ has_reaction "DISAGREE_WITH_TAGS" 9
          (all_reactions (descriptors_data sample_update)) = true).
Proof.
  intros r. split; [reflexivity|].
  apply (parsed_owners sample_update r 9). reflexivity.
Defined.

Lemma reaction_step_unrecognised im reaction :
  recognised reaction = false → reaction_step im reaction = im.
Proof.
  unfold recognised, reaction_step. intros [H1 H2]%orb_false_iff.
  by rewrite H1, H2.
Qed.

Lemma fold_reaction_step_recognised rs im :
  fold_left reaction_step (List.filter recognised rs) im = fold_left reaction_step rs im.
Proof.
  revert im. induction rs as [|reaction rs IH]; intros im; simpl; [done|].
  destruct (recognised reaction) eqn:Hrec; simpl.
  - apply IH.
  - by rewrite IH, reaction_step_unrecognised.
Qed.

(** On a payload whose conversions are done, reactions with a key other than
    [HELPFUL] and [DISAGREE_WITH_TAGS] change nothing. *)
Lemma converted_payload_drops_unrecognised (te_json : ThreatUpdateJSON) :
  from_threatexchange_json (drop_unrecognised te_json) = from_threatexchange_json te_json.
Proof.
  unfold from_threatexchange_json, drop_unrecognised. cbn [should_delete descriptors_data].
  destruct (should_delete te_json); [done|].
  assert (∀ data st,
            fold_left descriptor_step
              ((λ td, Descriptor (td_id td) (td_owner_id td) (td_status td) (td_tags td)
                        (List.filter recognised (td_reactions td))) <$> data) st
            = fold_left descriptor_step data st) as Hfold.
  { induction data as [|td data IH]; intros st; csimpl; [done|].
    rewrite IH. f_equal. unfold descriptor_step. cbn [td_owner_id td_reactions].
    by rewrite fold_reaction_step_recognised. }
  unfold all_opinions, collect_opinions. by rewrite Hfold.
Qed.

Lemma dict_set_fresh {K V} `{EqDecision K} (k : K) (v : V) d :
  dict_contains k d = false → dict_set k v d = d ++ [(k, v)].
Proof.
  unfold dict_contains. induction d as [|[k' v'] d IH]; simpl; [done|].
  destruct (decide (k = k')); [done|]. intros H. by rewrite IH.
Qed.

Lemma fold_implicit_step_appends im ex :
  ∃ tail,
    fold_left implicit_step im ex = ex ++ tail
    ∧ Forall (λ kv, (∃ c, kv.2 = implicit_opinion kv.1 c) ∧ kv.1 ∉ dict_keys ex) tail.
Proof.
  revert ex. induction im as [|[k c] im IH]; intros ex; simpl.
  - exists []. by rewrite app_nil_r.
  - unfold implicit_step at 2. simpl. destruct (dict_contains k ex) eqn:Hc.
    + apply IH.
    + rewrite dict_set_fresh by done.
      destruct (IH (ex ++ [(k, implicit_opinion k c)])) as (tail & Hfold & Htail).
      exists ((k, implicit_opinion k c) :: tail). split.
      * by rewrite Hfold, <-app_assoc.
      * constructor.
        -- split; [by exists c | by apply dict_contains_false].
        -- eapply Forall_impl; [exact Htail|]. intros kv [Himp Hnot].
           split; [done|]. intros Hin. apply Hnot. unfold dict_keys in *.
           rewrite fmap_app. apply elem_of_app. by left.
Qed.

Lemma explicit_values_from_descriptors data :
  Forall (λ kv, ∃ td, td ∈ data ∧ kv.1 = td_owner_id td ∧ kv.2 = explicit_opinion td)
    (assign_all td_owner_id explicit_opinion data []).
Proof.
  apply Forall_forall. intros [k v] Hin.
  assert (dict_get k (assign_all td_owner_id explicit_opinion data []) = Some v) as Hget.
  { apply dict_get_Some_elem; [|done]. apply dict_keys_assign_all_NoDup, NoDup_nil_2. }
  rewrite dict_get_explicit in Hget. unfold last_descriptor_of in Hget.
  destruct (last _) as [td|] eqn:Hlast; [|done]. injection Hget as <-.
  apply last_Some_elem_of, list_elem_of_filter in Hlast as [Ho Htd].
  by exists td.
Qed.

(** X9. In a parsed record every opinion taken from a descriptor comes before
    every opinion synthesized from a reaction; the synthesized ones carry the
    reserved descriptor id and no tags, and belong to owners without a
    descriptor. *)
Theorem explicit_before_implicit (te_json : ThreatUpdateJSON)
    (r : FBThreatExchangeIndicatorRecord) :
  from_threatexchange_json te_json = Some r →
  ∃ explicits implicits,
    opinions r = explicits ++ implicits
    ∧ Forall (λ op, ∃ td, td ∈ descriptors_data te_json ∧ op = explicit_opinion td)
        explicits
    ∧ Forall (λ op, descriptor_id op = Some REACTION_DESCRIPTOR_ID
                    ∧ tags op = []
                    ∧ ∀ td, td ∈ descriptors_data te_json → td_owner_id td ≠ owner op)
        implicits.
Proof.
  intros (_ & Hops & _)%from_threatexchange_json_Some.
  rewrite all_opinions_unfold in Hops.
  destruct (fold_implicit_step_appends
              (fold_left reaction_step (all_reactions (descriptors_data te_json)) [])
              (assign_all td_owner_id explicit_opinion (descriptors_data te_json) []))
    as (tail & Hfold & Htail).
  rewrite Hfold in Hops. unfold dict_values in Hops. rewrite fmap_app in Hops.
  eexists _, _. split; [exact Hops|]. split.
  - apply Forall_fmap.
    eapply Forall_impl; [apply explicit_values_from_descriptors|].
    intros kv (td & Htd & _ & Hv). by exists td.
  - apply Forall_fmap. eapply Forall_impl; [exact Htail|].
    intros [k v] [[c Hv] Hnot]. simpl in *. subst v. split_and!; [done | done |].
    intros td Htd Ho. simpl in Ho. apply Hnot.
    apply dict_keys_assign_all. right. by exists td.
Qed.

Lemma explicit_before_implicit_witness :
  let r := IndicatorRecord
             [ Opinion 5 NEGATIVE_CLASS ["t1"] (Some 1);
               Opinion 6 POSITIVE_CLASS ["a"; "z"] (Some 2);
               Opinion 7 POSITIVE_CLASS [] (Some (-1));
               Opinion 8 NEGATIVE_CLASS [] (Some (-1)) ] in
  from_threatexchange_json sample_update = Some r
  ∧ ∃ explicits implicits,
      opinions r = explicits ++ implicits
      ∧ Forall (λ op, ∃ td, td ∈ descriptors_data sample_update ∧ op = explicit_opinion td)
          explicits
      ∧ Forall (λ op, descriptor_id op = Some REACTION_DESCRIPTOR_ID
                      ∧ tags op = []
                      ∧ ∀ td, td ∈ descriptors_data sample_update →
                              td_owner_id td ≠ owner op)
          implicits.
Proof.
  intros r. split; [reflexivity|].
  apply (explicit_before_implicit sample_update r). reflexivity.
Defined.

(** ** Parsing: tags in the paginated form *)

Lemma sorted_insert_perm x l : sorted_insert x l ≡ₚ x :: l.
Proof.
  induction l as [|y l IH]; simpl; [done|].
  destruct (String.leb x y); [done|]. rewrite IH. apply Permutation_swap.
Qed.

Lemma sorted_insert_Sorted x l :
  Sorted (λ a b, String.leb a b = true) l →
  Sorted (λ a b, String.leb a b = true) (sorted_insert x l).
Proof.
  induction 1 as [|y l Hl IH Hhd]; simpl.
  - by repeat constructor.
  - destruct (String.leb x y) eqn:Hxy.
    + constructor; [by constructor | by constructor].
    + constructor; [done|].
      assert (String.leb y x = true) as Hyx.
      { destruct (String.leb_total x y) as [H|H]; [congruence | done]. }
      destruct l as [|z l]; simpl in *.
      * by constructor.
      * destruct (String.leb x z); constructor; [done|].
        by inversion Hhd.
Qed.

Lemma normalize_tags_spec (texts : list string) :
  normalize_tags (TagsData texts) ≡ₚ texts
  ∧ Sorted (λ a b, String.leb a b = true) (normalize_tags (TagsData texts))
  ∧ normalize_tags (TagsList texts) = texts.
Proof.
  split_and!; [| |done]; simpl; unfold sorted.
  - induction texts as [|x texts IH]; simpl; [done|].
    by rewrite sorted_insert_perm, IH.
  - induction texts as [|x texts IH]; simpl; [constructor|].
    by apply sorted_insert_Sorted.
Qed.

(** ** The type/tag resolver *)

Lemma mapping_lookup_append st ret type0 tag0 type_ tag :
  mapping_lookup type_ tag (mapping_append st ret (type0, tag0)) =
    if decide (type0 = type_ ∧ tag0 = tag)
    then mapping_lookup type_ tag ret ++ [st]
    else mapping_lookup type_ tag ret.
Proof.
  unfold mapping_lookup, mapping_append. cbn [fst snd]. rewrite dict_get_set.
  destruct (decide (type0 = type_)) as [->|Htype].
  - rewrite dict_get_set. destruct (decide (tag0 = tag)) as [->|Htag].
    + rewrite decide_True by done. simpl. by destruct (dict_get type_ ret).
    + rewrite decide_False by (by intros [_ ?]). by destruct (dict_get type_ ret).
  - by rewrite decide_False by (by intros [? _]).
Qed.

Lemma mapping_lookup_append_all st items ret type_ tag :
  NoDup (dict_keys items) →
  mapping_lookup type_ tag (fold_left (mapping_append st) items ret) =
    mapping_lookup type_ tag ret
    ++ (if bool_decide (dict_get type_ items = Some tag) then [st] else []).
Proof.
  unfold dict_keys. revert ret.
  induction items as [|[type0 tag0] items IH]; intros ret Hnd; csimpl.
  - by rewrite app_nil_r.
  - apply NoDup_cons in Hnd as [Hnotin Hnd]. rewrite IH by done.
    rewrite mapping_lookup_append.
    destruct (decide (type_ = type0)) as [->|Htype].
    + assert (dict_get type0 items = None) as -> by (by apply dict_get_None).
      rewrite (bool_decide_false (None = Some tag)) by done. rewrite app_nil_r.
      destruct (decide (tag0 = tag)) as [->|Htag].
      * rewrite decide_True by done. by rewrite bool_decide_true.
      * rewrite decide_False by (by intros [_ ?]).
        rewrite bool_decide_false by congruence. by rewrite app_nil_r.
    + by rewrite decide_False by (intros [? _]; congruence).
Qed.

Lemma declared_types_NoDup decl : NoDup (dict_keys (declared_types decl)).
Proof.
  destruct decl as [type_|types|types]; simpl.
  - apply NoDup_singleton.
  - apply (dict_keys_assign_all_NoDup fst snd), NoDup_nil_2.
  - apply (dict_keys_assign_all_NoDup fst snd), NoDup_nil_2.
Qed.

Lemma mapping_lookup_fold supported ret type_ tag :
  mapping_lookup type_ tag
    (fold_left
       (λ ret st,
          match INDICATOR_TYPE st with
          | None => ret
          | Some types => fold_left (mapping_append st) (declared_types types) ret
          end)
       supported ret)
  = mapping_lookup type_ tag ret ++ List.filter (declares type_ tag) supported.
Proof.
  revert ret. induction supported as [|st supported IH]; intros ret; simpl.
  - by rewrite app_nil_r.
  - rewrite IH. unfold declares at 2. destruct (INDICATOR_TYPE st) as [decl|]; [|done].
    rewrite mapping_lookup_append_all by apply declared_types_NoDup.
    rewrite <-app_assoc. by destruct (bool_decide _).
Qed.

(** X11. The resolver holds, for a remote type under a tag requirement,
    exactly the supported signal types that have the capability and declare
    that pair, in the order they were given and as often as they were given;
    signal types without the capability never appear. *)
Theorem resolver_holds_declaring_types (supported_signal_types : list SignalType)
    (type_ : string) (tag : option string) :
  mapping_lookup type_ tag (_make_indicator_type_mapping supported_signal_types)
  = List.filter (declares type_ tag) supported_signal_types.
Proof.
  unfold _make_indicator_type_mapping. rewrite mapping_lookup_fold.
  unfold mapping_lookup. done.
Qed.

Example resolver_of_samples :
  _make_indicator_type_mapping [video_md5; tagged_md5; plain_text; tagged_url; video_md5]
  = [ ("HASH_VIDEO_MD5"%string, [(None, [video_md5; video_md5])]);
      ("HASH_MD5"%string, [(Some "media_type_video"%string, [tagged_md5])]);
      ("URI"%string, [(Some "phishing"%string, [tagged_url])]);
      ("RAW_URI"%string, [(Some "phishing"%string, [tagged_url])]) ].
Proof. reflexivity. Qed.

(** ** The fetch filter and the projection gate agree *)

Lemma any_tag_declared_true pst ops :
  any_tag_declared pst ops = true ↔
  ∃ t, t ∈ indicator_tags_of ops ∧ Some t ∈ dict_keys pst.
Proof.
  unfold any_tag_declared. rewrite existsb_exists. split.
  - intros (o & Ho & (t & Ht & Hc)%existsb_exists). exists t. split.
    + apply elem_of_indicator_tags_of. exists o. by rewrite !list_elem_of_In.
    + by apply dict_contains_true.
  - intros (t & (o & Ho & Ht)%elem_of_indicator_tags_of & Hk).
    exists o. split; [by apply list_elem_of_In|]. apply existsb_exists.
    exists t. split; [by apply list_elem_of_In | by apply dict_contains_true].
Qed.

Lemma elem_of_dict_keys {K V} (k : K) (d : list (K * V)) :
  k ∈ dict_keys d ↔ ∃ v, (k, v) ∈ d.
Proof.
  unfold dict_keys. rewrite list_elem_of_fmap. split.
  - intros ([k' v] & -> & Hin). by exists v.
  - intros (v & Hin). by exists (k, v).
Qed.



Lemma fold_project_tag_all_gated type_str signal_str metadata indicator_tags
    (items : list (option string * list SignalType))
    (st : list (list FBThreatExchangeOpinion) * Projection) :
  Forall (λ item, ∃ t, item.1 = Some t ∧ t ∉ indicator_tags) items →
  fold_left (project_tag type_str signal_str metadata indicator_tags) items st = st.
Proof.
  induction 1 as [|[tag s_types] items (t & Htag & Hnot) Hitems IH]; cbn [fold_left];
    [done|].
  simpl in Htag. subst tag. by rewrite project_tag_gate.
Qed.

(** X13. An update that parses to a record but that the fetch filter maps to
    "no record" would be skipped by the projection as well: with the same
    resolver, projecting an entry for it leaves store and result untouched. *)
Theorem dropped_by_fetch_is_skipped_by_projection (u : ThreatUpdateJSON)
    (type_mapping : TypeMapping) (r : FBThreatExchangeIndicatorRecord)
    (h : heap) (ret : Projection) (l : loc) :
  from_threatexchange_json u = Some r →
  _indicator_applies u type_mapping = None →
  opinions_at h l = opinions r →
  project_entry type_mapping (h, ret) ((threat_type u, indicator u), Some l) = (h, ret).
Proof.
  intros Hparse Hdrop Hops. unfold _indicator_applies in Hdrop. unfold project_entry.
  rewrite Hparse in Hdrop.
  destruct (dict_get (threat_type u) type_mapping) as [pst|]; [|done].
  destruct (dict_contains None pst) eqn:Hw; [done|].
  destruct (any_tag_declared pst (opinions r)) eqn:Hany; [done|].
  apply fold_project_tag_all_gated. apply Forall_forall. intros [tag s_types] Hin.
  cbn [fst]. destruct tag as [t|].
  - exists t. split; [done|]. cbn [fst]. rewrite Hops. intros Ht.
    assert (any_tag_declared pst (opinions r) = true) as Htrue; [|congruence].
    apply any_tag_declared_true. exists t. split; [done|].
    apply elem_of_dict_keys. by exists s_types.
  - exfalso. apply dict_contains_false in Hw. apply Hw.
    apply elem_of_dict_keys. by exists s_types.
Qed.

Lemma dropped_by_fetch_is_skipped_by_projection_witness :
  let r := IndicatorRecord [Opinion 10 POSITIVE_CLASS ["media_type_photo"] (Some 3)] in
  let type_mapping := _make_indicator_type_mapping [video_md5; tagged_md5] in
  let h : heap := [[Opinion 10 POSITIVE_CLASS ["media_type_photo"] (Some 3)]] in
  from_threatexchange_json untagged_md5_update = Some r
  ∧ _indicator_applies untagged_md5_update type_mapping = None
  ∧ opinions_at h 0 = opinions r
  ∧ project_entry type_mapping (h, [])
      ((threat_type untagged_md5_update, indicator untagged_md5_update), Some 0%nat)
    = (h, []).
Proof.
  intros r type_mapping h. split_and!; [reflexivity | reflexivity | reflexivity |].
  apply (dropped_by_fetch_is_skipped_by_projection untagged_md5_update type_mapping r
           h [] 0%nat); reflexivity.
Defined.

(** ** Signal projection: what happens to the store *)

Lemma store_extends_refl (h : heap) : store_extends h h.
Proof. split; [done | intros l; done]. Qed.

Lemma store_extends_trans (h1 h2 h3 : heap) :
  store_extends h1 h2 → store_extends h2 h3 → store_extends h1 h3.
Proof.
  intros [Hlen12 Hpre12] [Hlen23 Hpre23]. split; [lia|].
  intros l. etrans; [apply Hpre12 | apply Hpre23].
Qed.

Lemma store_extends_merge (h : heap) self other : store_extends h (merge h self other).
Proof.
  split; [by rewrite length_merge|]. intros l.
  destruct (decide (self = l)) as [<-|Hne].
  - destruct (decide (self < length h)%nat) as [Hlt|Hge].
    + rewrite opinions_at_merge_self by done. by apply prefix_app_r.
    + unfold merge. rewrite list_insert_ge by lia. done.
  - by rewrite opinions_at_merge_other.
Qed.

Lemma store_extends_alloc (h : heap) ops : store_extends h (alloc h ops).1.
Proof.
  split; [unfold alloc; simpl; rewrite length_app; lia|]. intros l.
  destruct (decide (l < length h)%nat) as [Hlt|Hge].
  - by rewrite opinions_at_alloc_old.
  - unfold opinions_at at 1. rewrite lookup_ge_None_2 by lia. apply prefix_nil.
Qed.

Lemma merge_record_cases (h : heap) tx_record tag existing :
  let out := _merge_record_for_signal_type h tx_record tag existing in
  out = (h, None)
  ∨ (existing = None ∧ out = (h, Some tx_record))
  ∨ (existing = None ∧ ∃ ops, out = ((alloc h ops).1, Some (alloc h ops).2))
  ∨ (∃ e, existing = Some e ∧ out = (merge h e tx_record, None))
  ∨ (∃ e ops, existing = Some e
              ∧ out = (merge (alloc h ops).1 e (alloc h ops).2, None)).
Proof.
  unfold _merge_record_for_signal_type. destruct tag as [tag|].
  - destruct (applicable_opinions tag (opinions_at h tx_record)) as [|o app];
      [by left|].
    case_bool_decide; destruct existing as [e|]; cbn zeta beta iota.
    + right. right. right. right. by exists e, (o :: app).
    + right. right. left. split; [done|]. by exists (o :: app).
    + right. right. right. left. by exists e.
    + right. left. done.
  - destruct existing as [e|]; cbn zeta beta iota.
    + right. right. right. left. by exists e.
    + right. left. done.
Qed.

Lemma store_extends_merge_record (h : heap) tx_record tag existing :
  store_extends h (_merge_record_for_signal_type h tx_record tag existing).1.
Proof.
  destruct (merge_record_cases h tx_record tag existing)
    as [->|[[_ ->]|[[_ [ops ->]]|[[e [_ ->]]|[e [ops [_ ->]]]]]]]; cbn [fst].
  - apply store_extends_refl.
  - apply store_extends_refl.
  - apply store_extends_alloc.
  - apply store_extends_merge.
  - eapply store_extends_trans; [apply store_extends_alloc | apply store_extends_merge].
Qed.

Lemma project_signal_type_store type_str signal_str metadata tag
    (st : list (list FBThreatExchangeOpinion) * Projection) tx_s_type :
  (project_signal_type type_str signal_str metadata tag st tx_s_type).1 =
    (_merge_record_for_signal_type st.1 metadata tag
       (match dict_get (st_id tx_s_type) st.2 with
        | Some inner =>
            dict_get (normalize_fb_threatexchange_indicator tx_s_type type_str signal_str tag)
              inner
        | None => None
        end)).1.
Proof.
  destruct st as [h ret]. unfold project_signal_type. cbn [fst snd].
  destruct (dict_get (st_id tx_s_type) ret) as [inner|]; cbn [dict_get];
    by destruct (_merge_record_for_signal_type _ _ _ _) as [h' [l|]].
Qed.

Lemma fold_left_store_extends {A} (f : list (list FBThreatExchangeOpinion) * Projection → A →
                                       list (list FBThreatExchangeOpinion) * Projection)
    (l : list A) st :
  (∀ st x, store_extends st.1 (f st x).1) →
  store_extends st.1 (fold_left f l st).1.
Proof.
  intros Hf. revert st. induction l as [|x l IH]; intros st; simpl.
  - apply store_extends_refl.
  - eapply store_extends_trans; [apply Hf | apply IH].
Qed.

Lemma project_entry_store_extends mapping st entry :
  store_extends st.1 (project_entry mapping st entry).1.
Proof.
  destruct entry as [[type_str signal_str] [metadata|]]; unfold project_entry.
  - destruct (dict_get type_str mapping) as [pst|]; [|apply store_extends_refl].
    apply fold_left_store_extends. intros st' [tag s_types]. unfold project_tag.
    destruct (match tag with Some t => _ | None => false end);
      [apply store_extends_refl|].
    apply fold_left_store_extends. intros st'' tx.
    rewrite project_signal_type_store. apply store_extends_merge_record.
  - destruct (dict_get type_str mapping); apply store_extends_refl.
Qed.

(** X14. Projection only ever extends the store it works on: no record is
    removed, and the opinion list every record had before the call is a
    prefix of the list it has afterwards (opinions are appended, never dropped,
    reordered or rewritten). *)
Theorem projection_extends_store (h : heap) (signal_types : list SignalType)
    (fetched : list (string * string * option loc)) :
  store_extends h (naive_convert_to_signal_type h signal_types fetched).1.
Proof.
  unfold naive_convert_to_signal_type.
  apply (fold_left_store_extends _ fetched (h, [])).
  intros st entry. apply project_entry_store_extends.
Qed.

(** X15. [_merge_record_for_signal_type] returns no record whenever the signal
    already has one; a record it returns is the input record or one created
    by the call; and it leaves every record of the store other than
    [existing] as it was. *)
Theorem merge_record_frame (h : heap) (tx_record : loc) (tag : option string)
    (existing : option loc) :
  let out := _merge_record_for_signal_type h tx_record tag existing in
  (is_Some existing → out.2 = None)
  ∧ (∀ l, out.2 = Some l → l = tx_record ∨ (l = length h ∧ length out.1 = S (length h)))
  ∧ (∀ l, (l < length h)%nat → existing ≠ Some l →
          opinions_at out.1 l = opinions_at h l).
Proof.
  intros out. subst out.
  destruct (merge_record_cases h tx_record tag existing)
    as [H|[[He H]|[[He (ops & H)]|[(e & He & H)|(e & ops & He & H)]]]];
    rewrite H; try rewrite He; cbn [fst snd].
  - split_and!; [done | done | done].
  - split_and!; [by intros [? ?] | intros l [= <-]; by left | done].
  - split_and!; [by intros [? ?] | |].
    + intros l [= <-]. right. unfold alloc. simpl. rewrite length_app. simpl.
      split; [done | lia].
    + intros l Hl _. by apply opinions_at_alloc_old.
  - split_and!; [done | done |].
    intros l Hl Hne. apply opinions_at_merge_other. congruence.
  - split_and!; [done | done |].
    intros l Hl Hne. rewrite opinions_at_merge_other by congruence.
    by apply opinions_at_alloc_old.
Qed.

Lemma fold_left_id {A B} (f : B → A → B) (l : list A) (b : B) :
  (∀ x, x ∈ l → ∀ b, f b x = b) → fold_left f l b = b.
Proof.
  induction l as [|x l IH]; intros Hf; simpl; [done|].
  rewrite Hf by (apply elem_of_cons; by left).
  apply IH. intros y Hy. apply Hf, elem_of_cons. by right.
Qed.

(** X16. Entries without a record and entries whose remote type no supported
    signal type claims are passed over: when the fetched mapping holds only
    such entries, the projection is empty and the store untouched. *)
Theorem projection_of_irrelevant_entries (h : heap) (signal_types : list SignalType)
    (fetched : list (string * string * option loc)) :
  (∀ type_str signal_str metadata,
     ((type_str, signal_str), metadata) ∈ fetched →
     metadata = None
     ∨ dict_get type_str (_make_indicator_type_mapping signal_types) = None) →
  naive_convert_to_signal_type h signal_types fetched = (h, []).
Proof.
  intros Hirr. unfold naive_convert_to_signal_type. apply fold_left_id.
  intros [[type_str signal_str] metadata] Hin st. unfold project_entry.
  destruct (Hirr _ _ _ Hin) as [-> | ->]; [|done].
  by destruct (dict_get type_str _).
Qed.

Lemma projection_of_irrelevant_entries_witness :
  let h : heap := [[a1]] in
  let fetched : list (string * string * option loc) :=
    [(("HASH_VIDEO_MD5", "abc123")%string, None);
     (("IP_ADDRESS", "10.0.0.1")%string, Some 0%nat)] in
  (∀ type_str signal_str metadata,
     ((type_str, signal_str), metadata) ∈ fetched →
     metadata = None
     ∨ dict_get type_str (_make_indicator_type_mapping [video_md5; plain_text]) = None)
  ∧ naive_convert_to_signal_type h [video_md5; plain_text] fetched = (h, []).
Proof.
  intros h fetched.
  assert (∀ type_str signal_str metadata,
            ((type_str, signal_str), metadata) ∈ fetched →
            metadata = None
            ∨ dict_get type_str (_make_indicator_type_mapping [video_md5; plain_text]) = None)
    as Hirr.
  { intros type_str signal_str metadata Hin.
    apply elem_of_cons in Hin as [[= -> -> ->]|Hin]; [by left|].
    apply list_elem_of_singleton in Hin as [= -> -> ->]. by right. }
  split; [exact Hirr|].
  exact (projection_of_irrelevant_entries h [video_md5; plain_text] fetched Hirr).
Defined.

(** ** Signal projection: where the stored records come from *)

Lemma dict_get_Forall {K V} `{EqDecision K} (P : K * V → Prop) k v (d : list (K * V)) :
  Forall P d → dict_get k d = Some v → P (k, v).
Proof.
  intros Hall Hget. apply dict_get_elem in Hget.
  by apply (proj1 (Forall_forall P d) Hall).
Qed.

Lemma fold_left_invariant {A B} (I : B → Prop) (f : B → A → B) (l : list A) (b : B) :
  (∀ b x, x ∈ l → I b → I (f b x)) → I b → I (fold_left f l b).
Proof.
  revert b. induction l as [|x l IH]; intros b Hf Hb; simpl; [done|].
  apply IH.
  - intros b' y Hy. apply Hf, elem_of_cons. by right.
  - apply Hf; [apply elem_of_cons; by left | done].
Qed.

Lemma mapping_all_append (R : SignalType → Prop) st ret item :
  R st → mapping_all R ret → mapping_all R (mapping_append st ret item).
Proof.
  intros Hst Hret. unfold mapping_all, mapping_append in *.
  assert (Forall (λ e2 : option string * list SignalType, Forall R e2.2)
            (default [] (dict_get item.1 ret))) as Hinner.
  { destruct (dict_get item.1 ret) as [inner|] eqn:E; [|constructor].
    apply (dict_get_Forall _ _ _ _ Hret E). }
  apply dict_set_Forall; [|done]. cbn [snd].
  apply dict_set_Forall; [|done]. cbn [snd].
  apply Forall_app. split; [|by repeat constructor].
  destruct (dict_get item.2 (default [] (dict_get item.1 ret))) as [sts|] eqn:E;
    [|constructor].
  apply (dict_get_Forall _ _ _ _ Hinner E).
Qed.

Lemma mapping_all_supported supported :
  mapping_all (λ st, st ∈ supported ∧ is_Some (INDICATOR_TYPE st))
    (_make_indicator_type_mapping supported).
Proof.
  unfold _make_indicator_type_mapping.
  apply (fold_left_invariant
           (mapping_all (λ st, st ∈ supported ∧ is_Some (INDICATOR_TYPE st)))).
  - intros ret st Hst Hret. destruct (INDICATOR_TYPE st) as [decl|] eqn:Hdecl; [|done].
    apply (fold_left_invariant
             (mapping_all (λ st, st ∈ supported ∧ is_Some (INDICATOR_TYPE st))));
      [|done].
    intros ret' item _ Hret'. apply mapping_all_append; [|done].
    split; [done | by rewrite Hdecl].
  - constructor.
Qed.

Lemma merge_record_returned (h : heap) tx_record tag existing h' l :
  _merge_record_for_signal_type h tx_record tag existing = (h', Some l) →
  l = tx_record ∨ l = length h.
Proof.
  intros Hm.
  destruct (merge_record_cases h tx_record tag existing)
    as [H|[[He H]|[[He (ops & H)]|[(e & He & H)|(e & ops & He & H)]]]];
    rewrite Hm in H; try done.
  - injection H as _ ->. by left.
  - injection H as _ ->. by right.
Qed.

Lemma project_signal_type_invariant (Q : nat → Prop) (P : loc → Prop) (n0 : nat)
    type_str signal_str metadata tag
    (st : list (list FBThreatExchangeOpinion) * Projection) tx_s_type :
  Q (st_id tx_s_type) →
  P metadata →
  (∀ l, (n0 ≤ l)%nat → P l) →
  (n0 ≤ length st.1)%nat ∧ projection_all Q P st.2 →
  let out := project_signal_type type_str signal_str metadata tag st tx_s_type in
  (n0 ≤ length out.1)%nat ∧ projection_all Q P out.2.
Proof.
  intros HQ HP Hfresh [Hlen Hret] out. split.
  - subst out. rewrite project_signal_type_store.
    pose proof (store_extends_merge_record st.1 metadata tag
      (match dict_get (st_id tx_s_type) st.2 with
       | Some inner =>
           dict_get (normalize_fb_threatexchange_indicator tx_s_type type_str signal_str tag)
             inner
       | None => None
       end)) as [Hle _]. lia.
  - subst out. destruct st as [h ret]. cbn [fst snd] in *.
    unfold project_signal_type, projection_all in *.
    set (s := normalize_fb_threatexchange_indicator tx_s_type type_str signal_str tag).
    destruct (dict_get (st_id tx_s_type) ret) as [inner|] eqn:Hinner.
    + pose proof (dict_get_Forall _ _ _ _ Hret Hinner) as [_ Hvals]. cbn [snd] in Hvals.
      destruct (_merge_record_for_signal_type h metadata tag (dict_get s inner))
        as [h' [l|]] eqn:Hm; cbn [snd]; [|done].
      apply dict_set_Forall; [|done]. split; [done|]. cbn [snd].
      apply dict_set_Forall; [|done]. cbn [snd].
      apply merge_record_returned in Hm as [-> | ->]; [done | by apply Hfresh].
    + cbn [dict_get].
      destruct (_merge_record_for_signal_type h metadata tag None)
        as [h' [l|]] eqn:Hm; cbn [snd].
      * apply dict_set_Forall; [|apply dict_set_Forall; [by split|done]].
        split; [done|]. cbn [snd]. apply dict_set_Forall; [|constructor]. cbn [snd].
        apply merge_record_returned in Hm as [-> | ->]; [done | by apply Hfresh].
      * apply dict_set_Forall; [by split | done].
Qed.

(** X17. Every record the projection stores is a record of the fetched mapping
    or a record created during the call (a location that did not exist in the
    input store), and it is stored under a supported signal type that has the
    ThreatExchange capability. *)
Theorem projected_records_provenance (h : heap) (signal_types : list SignalType)
    (fetched : list (string * string * option loc))
    (s_type : nat) (signal_str : string) (l : loc) :
  projection_get s_type signal_str
    (naive_convert_to_signal_type h signal_types fetched).2 = Some l →
  ((∃ type_str signal_str', ((type_str, signal_str'), Some l) ∈ fetched)
   ∨ (length h ≤ l)%nat)
  ∧ ∃ st, st ∈ signal_types ∧ st_id st = s_type ∧ is_Some (INDICATOR_TYPE st).
Proof.
  set (P := λ l : loc,
         (∃ type_str signal_str', ((type_str, signal_str'), Some l) ∈ fetched)
         ∨ (length h ≤ l)%nat).
  set (Q := λ s_type : nat,
         ∃ st, st ∈ signal_types ∧ st_id st = s_type ∧ is_Some (INDICATOR_TYPE st)).
  set (I := λ st : list (list FBThreatExchangeOpinion) * Projection,
         (length h ≤ length st.1)%nat ∧ projection_all Q P st.2).
  assert (I (naive_convert_to_signal_type h signal_types fetched)) as [_ Hall].
  { unfold naive_convert_to_signal_type. apply (fold_left_invariant I).
    - intros st [[type_str signal_str'] metadata] Hin Hst. unfold project_entry.
      destruct (dict_get type_str (_make_indicator_type_mapping signal_types))
        as [pst|] eqn:Hpst; [|done].
      destruct metadata as [metadata|]; [|done].
      pose proof (dict_get_Forall _ _ _ _ (mapping_all_supported signal_types) Hpst)
        as Hsts. cbn [snd] in Hsts.
      apply (fold_left_invariant I); [|done].
      intros st' [tag s_types] Htag Hst'. unfold project_tag.
      destruct (match tag with Some t => _ | None => false end); [done|].
      apply (fold_left_invariant I); [|done].
      intros st'' tx Htx Hst''.
      apply (project_signal_type_invariant Q P (length h)); [| | |done].
      + pose proof (proj1 (Forall_forall _ _) Hsts _ Htag) as Hlist. cbn [snd] in Hlist.
        pose proof (proj1 (Forall_forall _ _) Hlist _ Htx) as [Hsup Hcap].
        by exists tx.
      + left. by exists type_str, signal_str'.
      + intros l' Hl'. by right.
    - split; [done | constructor]. }
  unfold projection_get. intros Hget.
  destruct (dict_get s_type _) as [inner|] eqn:Hinner; [|done].
  pose proof (dict_get_Forall _ _ _ _ Hall Hinner) as [HQ Hvals]. cbn [fst snd] in *.
  pose proof (dict_get_Forall _ _ _ _ Hvals Hget) as HP. cbn [snd] in HP.
  by split.
Qed.

Lemma projected_records_provenance_witness :
  let h : heap := [[exact_tag; shorter_tag; longer_tag]] in
  let fetched : list (string * string * option loc) :=
    [(("HASH_MD5", "0cc17")%string, Some 0%nat)] in
  projection_get 2 "0cc17" (naive_convert_to_signal_type h [tagged_md5] fetched).2
    = Some 1%nat
  ∧ ((∃ type_str signal_str', ((type_str, signal_str'), Some 1%nat) ∈ fetched)
     ∨ (length h ≤ 1)%nat)
  ∧ ∃ st, st ∈ [tagged_md5] ∧ st_id st = 2%nat ∧ is_Some (INDICATOR_TYPE st).
Proof.
  intros h fetched. split; [reflexivity|].
  apply (projected_records_provenance h [tagged_md5] fetched 2 "0cc17" 1). reflexivity.
Defined.

(** ** Signal projection: records that collapse onto one signal *)

Lemma mapping_of_plain_type st type_ (copies : list SignalType) :
  INDICATOR_TYPE st = Some (DeclStr type_) →
  fold_left
    (λ ret st,
       match INDICATOR_TYPE st with
       | None => ret
       | Some types => fold_left (mapping_append st) (declared_types types) ret
       end)
    [st] [(type_, [(None, copies)])]
  = [(type_, [(None, copies ++ [st])])].
Proof.
  intros Hdecl. simpl. rewrite Hdecl. simpl. unfold mapping_append. simpl.
  rewrite decide_True by done. simpl. by rewrite decide_True.
Qed.

Lemma mapping_single_plain st type_ :
  INDICATOR_TYPE st = Some (DeclStr type_) →
  _make_indicator_type_mapping [st] = [(type_, [(None, [st])])].
Proof.
  intros Hdecl. unfold _make_indicator_type_mapping. simpl. by rewrite Hdecl.
Qed.

Lemma mapping_double_plain st type_ :
  INDICATOR_TYPE st = Some (DeclStr type_) →
  _make_indicator_type_mapping [st; st] = [(type_, [(None, [st; st])])].
Proof.
  intros Hdecl. unfold _make_indicator_type_mapping.
  change [st; st] with ([st] ++ [st]). rewrite fold_left_app.
  fold (_make_indicator_type_mapping [st]). rewrite (mapping_single_plain st type_ Hdecl).
  by rewrite (mapping_of_plain_type st type_ [st] Hdecl).
Qed.

Lemma project_signal_type_first type_str signal_str metadata (h : heap) tx_s_type :
  project_signal_type type_str signal_str metadata None (h, []) tx_s_type
  = (h, [(st_id tx_s_type,
          [(normalize_fb_threatexchange_indicator tx_s_type type_str signal_str None,
            metadata)])]).
Proof.
  unfold project_signal_type. simpl. by rewrite decide_True.
Qed.

Lemma project_signal_type_again type_str signal_str metadata (h : heap) tx_s_type s l0 :
  normalize_fb_threatexchange_indicator tx_s_type type_str signal_str None = s →
  project_signal_type type_str signal_str metadata None
    (h, [(st_id tx_s_type, [(s, l0)])]) tx_s_type
  = (merge h l0 metadata, [(st_id tx_s_type, [(s, l0)])]).
Proof.
  intros Hnorm. unfold project_signal_type. rewrite Hnorm. simpl.
  rewrite decide_True by done. simpl. by rewrite decide_True.
Qed.

(** X18. Signal types are not deduplicated: when the same signal type is
    passed twice, a record of its remote type is first stored and then merged
    into itself, so the caller's record ends up with every opinion twice. *)
Theorem repeated_signal_type_doubles_opinions (h : heap) (st : SignalType)
    (type_ signal_str : string) (l : loc) (ops : list FBThreatExchangeOpinion) :
  INDICATOR_TYPE st = Some (DeclStr type_) →
  h !! l = Some ops →
  let out := naive_convert_to_signal_type h [st; st] [((type_, signal_str), Some l)] in
  opinions_at out.1 l = ops ++ ops
  ∧ out.2 = [(st_id st,
              [(normalize_fb_threatexchange_indicator st type_ signal_str None, l)])].
Proof.
  intros Hdecl Hl out. subst out. unfold naive_convert_to_signal_type.
  rewrite (mapping_double_plain st type_ Hdecl). cbn [fold_left].
  unfold project_entry. simpl dict_get. rewrite decide_True by done.
  cbn [fold_left fst]. unfold project_tag. cbn [fold_left].
  rewrite project_signal_type_first.
  rewrite (project_signal_type_again _ _ _ _ _ _ l eq_refl). cbn [fst snd].
  split; [|done].
  rewrite opinions_at_merge_self by (by eapply lookup_lt_Some).
  unfold opinions_at. by rewrite Hl.
Qed.

Lemma repeated_signal_type_doubles_opinions_witness :
  let h : heap := [[a1]] in
  let out :=
    naive_convert_to_signal_type h [video_md5; video_md5]
      [(("HASH_VIDEO_MD5", "abc123")%string, Some 0%nat)] in
  h !! 0%nat = Some [a1]
  ∧ opinions_at out.1 0 = [a1; a1]
  ∧ out.2 = [(1%nat, [("abc123"%string, 0%nat)])].
Proof.
  intros h out. split; [reflexivity|].
  apply (repeated_signal_type_doubles_opinions h video_md5 "HASH_VIDEO_MD5" "abc123"
           0%nat [a1] eq_refl eq_refl).
Defined.

Lemma project_entry_plain st type_ signal_str metadata
    (state : list (list FBThreatExchangeOpinion) * Projection) :
  project_entry [(type_, [(None, [st])])] state ((type_, signal_str), Some metadata)
  = project_signal_type type_ signal_str metadata None state st.
Proof.
  unfold project_entry. simpl dict_get. rewrite decide_True by done. done.
Qed.

Lemma fold_project_entry_same_signal st type_ s l0 (rest : list (string * loc)) (h : heap) :
  (l0 < length h)%nat →
  l0 ∉ rest.*2 →
  Forall (λ e, normalize_fb_threatexchange_indicator st type_ e.1 None = s) rest →
  ∃ h',
    fold_left (project_entry [(type_, [(None, [st])])])
      ((λ e, ((type_, e.1), Some e.2)) <$> rest) (h, [(st_id st, [(s, l0)])])
    = (h', [(st_id st, [(s, l0)])])
    ∧ length h' = length h
    ∧ opinions_at h' l0 = opinions_at h l0 ++ concat ((λ e, opinions_at h e.2) <$> rest)
    ∧ ∀ l, l ≠ l0 → opinions_at h' l = opinions_at h l.
Proof.
  intros Hl0 Hnotin Hnorm. revert h Hl0.
  induction Hnorm as [|[sig l] rest Hsig Hrest IH]; intros h Hl0.
  - exists h. simpl. by rewrite app_nil_r.
  - rewrite !fmap_cons in *. cbn [fold_left concat].
    apply not_elem_of_cons in Hnotin as [Hne Hnotin].
    rewrite project_entry_plain. cbn [fst snd] in *.
    rewrite (project_signal_type_again _ _ _ _ _ _ l0 Hsig).
    destruct (IH Hnotin (merge h l0 l)) as (h' & Hfold & Hlen & Hops & Hframe).
    { by rewrite length_merge. }
    exists h'. split; [exact Hfold|]. split; [by rewrite Hlen, length_merge|]. split.
    + rewrite Hops, opinions_at_merge_self by done. rewrite <-app_assoc. f_equal. f_equal.
      f_equal. apply list_fmap_ext. intros i [sig' l'] Hi. cbn [snd].
      apply opinions_at_merge_other. intros <-. apply Hnotin.
      apply list_elem_of_fmap. exists (sig', l0). split; [done|].
      by eapply list_elem_of_lookup_2.
    + intros l' Hl'. rewrite Hframe by done. by apply opinions_at_merge_other.
Qed.

(** X19. For one signal type that claims a remote type outright, fetched
    records of that type that normalize to the same signal string collapse
    onto the first of them: the result stores the first record, whose opinion
    list becomes its own opinions followed by those of the others in fetched
    order; no record is created and no other record changes. *)
Theorem same_signal_records_concatenate (h : heap) (st : SignalType)
    (type_ s signal0 : string) (l0 : loc) (rest : list (string * loc)) :
  INDICATOR_TYPE st = Some (DeclStr type_) →
  (l0 < length h)%nat →
  l0 ∉ rest.*2 →
  normalize_fb_threatexchange_indicator st type_ signal0 None = s →
  Forall (λ e, normalize_fb_threatexchange_indicator st type_ e.1 None = s) rest →
  let fetched :=
    ((type_, signal0), Some l0) :: ((λ e, ((type_, e.1), Some e.2)) <$> rest) in
  let out := naive_convert_to_signal_type h [st] fetched in
  out.2 = [(st_id st, [(s, l0)])]
  ∧ length out.1 = length h
  ∧ opinions_at out.1 l0 = opinions_at h l0 ++ concat ((λ e, opinions_at h e.2) <$> rest)
  ∧ ∀ l, l ≠ l0 → opinions_at out.1 l = opinions_at h l.
Proof.
  intros Hdecl Hl0 Hnotin Hsig0 Hrest fetched out. subst out fetched.
  unfold naive_convert_to_signal_type. rewrite (mapping_single_plain st type_ Hdecl).
  cbn [fold_left]. rewrite project_entry_plain, project_signal_type_first, Hsig0.
  destruct (fold_project_entry_same_signal st type_ s l0 rest h Hl0 Hnotin Hrest)
    as (h' & -> & Hlen & Hops & Hframe).
  by split_and!.
Qed.

Lemma same_signal_records_concatenate_witness :
  let h : heap := [[a1]; [b1; b2]; [b1]] in
  let st : SignalType :=
    {| st_id := 7;
       INDICATOR_TYPE := Some (DeclStr "URI");
       normalize_fb_threatexchange_indicator := λ _ _ _, "x.example"%string |} in
  let rest : list (string * loc) := [("X.example"%string, 1%nat); ("x.Example"%string, 2%nat)] in
  let out :=
    naive_convert_to_signal_type h [st]
      ((("URI", "x.example")%string, Some 0%nat)
         :: ((λ e, (("URI"%string, e.1), Some e.2)) <$> rest)) in
  ((0 < length h)%nat ∧ 0%nat ∉ rest.*2)
  ∧ out.2 = [(7%nat, [("x.example"%string, 0%nat)])]
  ∧ opinions_at out.1 0 = [a1; b1; b2; b1].
Proof.
  intros h st rest out.
  assert ((0 < length h)%nat) as Hl0 by (simpl; lia).
  assert (0%nat ∉ rest.*2) as Hnotin.
  { simpl. intros Hin. apply elem_of_cons in Hin as [Hin|Hin]; [done|].
    apply list_elem_of_singleton in Hin. done. }
  split; [by split|].
  destruct (same_signal_records_concatenate h st "URI" "x.example" "x.example" 0%nat rest
              eq_refl Hl0 Hnotin eq_refl ltac:(by repeat constructor))
    as (Hret & _ & Hops & _).
  split; [exact Hret | exact Hops].
Defined.

Lemma merge_record_frame_witness :
  let h : heap := [[exact_tag; shorter_tag; longer_tag]; [b1]] in
  let out := _merge_record_for_signal_type h 0 (Some "media_type_video"%string) (Some 1%nat) in
  out.2 = None
  ∧ opinions_at out.1 0 = opinions_at h 0
  ∧ opinions_at out.1 1 = [b1; exact_tag; shorter_tag].
Proof.
  intros h out.
  destruct (merge_record_frame h 0%nat (Some "media_type_video"%string) (Some 1%nat))
    as (Hnone & _ & Hframe).
  split_and!.
  - apply Hnone. by eexists.
  - apply Hframe; [simpl; lia | done].
  - reflexivity.
Defined.


(** ** Parsing: tags of a parsed opinion *)

(** X10. In a parsed record, the opinion of an owner who wrote a descriptor
    carries that (last) descriptor's tags: when they were delivered in the
    paginated form, the delivered texts, each as often as delivered, in
    ascending order; when they were delivered as a plain list, that list
    unchanged. *)
Theorem parsed_tags_sorted (te_json : ThreatUpdateJSON)
    (r : FBThreatExchangeIndicatorRecord) (td : DescriptorJSON) :
  from_threatexchange_json te_json = Some r →
  last_descriptor_of (td_owner_id td) (descriptors_data te_json) = Some td →
  ∃ op,
    opinions_of_owner (td_owner_id td) (opinions r) = [op]
    ∧ match td_tags td with
      | TagsData texts =>
          tags op ≡ₚ texts ∧ Sorted (λ a b, String.leb a b = true) (tags op)
      | TagsList l => tags op = l
      end.
Proof.
  intros (_ & Hops & _)%from_threatexchange_json_Some Hlast.
  exists (explicit_opinion td). split.
  - rewrite Hops, opinions_of_owner_values by apply keyed_by_owner_all_opinions.
    by rewrite dict_get_all_opinions, Hlast.
  - unfold explicit_opinion. cbn [tags]. destruct (td_tags td) as [l|texts].
    + apply (normalize_tags_spec l).
    + split; apply (normalize_tags_spec texts).
Qed.

Lemma parsed_tags_sorted_witness :
  let r := IndicatorRecord
             [ Opinion 5 NEGATIVE_CLASS ["t1"] (Some 1);
               Opinion 6 POSITIVE_CLASS ["a"; "z"] (Some 2);
               Opinion 7 POSITIVE_CLASS [] (Some (-1));
               Opinion 8 NEGATIVE_CLASS [] (Some (-1)) ] in
  let td := Descriptor 2 6 "MALICIOUS" (TagsData ["z"; "a"])
              [Reaction "HELPFUL" 5; Reaction "DISAGREE_WITH_TAGS" 8;
               Reaction "SAW_THIS_TOO" 9] in
  from_threatexchange_json sample_update = Some r
  ∧ last_descriptor_of (td_owner_id td) (descriptors_data sample_update) = Some td
  ∧ ∃ op,
      opinions_of_owner 6 (opinions r) = [op]
      ∧ tags op ≡ₚ ["z"; "a"]
      ∧ Sorted (λ a b, String.leb a b = true) (tags op).
Proof.
  intros r td. split_and!; [reflexivity | reflexivity |].
  destruct (parsed_tags_sorted sample_update r td eq_refl eq_refl) as (op & Hop & Htags).
  exists op. split; [exact Hop | exact Htags].
Defined.

(** ** Parsing: the payload as it arrives *)

Section raw_parse_facts.
Variable py_int : string → option Z.

Lemma fold_raw_reactions rs im :
  fold_until_raise (raw_reaction_step py_int) rs im
  = (λ rs', fold_left reaction_step rs' im) <$> traverse (decode_reaction py_int) rs.
Proof.
  revert im. induction rs as [|reaction rs IH]; intros im; simpl; [done|].
  unfold raw_reaction_step at 1. unfold decode_reaction at 1.
  destruct (py_int (raw_value reaction)) as [own|]; [|done].
  rewrite IH. by destruct (traverse (decode_reaction py_int) rs).
Qed.

Lemma fold_raw_descriptors data st :
  fold_until_raise (raw_descriptor_step py_int) data st
  = (λ data', fold_left descriptor_step data' st) <$> traverse (decode_descriptor py_int) data.
Proof.
  revert st. induction data as [|td data IH]; intros st; simpl; [done|].
  unfold raw_descriptor_step at 1. unfold decode_descriptor at 1.
  destruct (py_int (raw_id td)) as [id|]; [|done].
  destruct (py_int (raw_owner_id td)) as [own|]; [|done].
  rewrite fold_raw_reactions.
  destruct (traverse (decode_reaction py_int) (raw_reactions td)) as [rs|]; [|done].
  simpl. rewrite IH. by destruct (traverse (decode_descriptor py_int) data).
Qed.

(** The parse of the arriving payload raises exactly when a conversion
    fails on a payload without the delete marker, and otherwise returns what
    the parse of the converted payload returns. *)
Lemma raw_from_threatexchange_json_decoded te_json :
  raw_from_threatexchange_json py_int te_json =
    if raw_should_delete te_json then Returns None
    else match decode_update py_int te_json with
         | None => Raises
         | Some te_json' => Returns (from_threatexchange_json te_json')
         end.
Proof.
  unfold raw_from_threatexchange_json, decode_update.
  destruct (raw_should_delete te_json) eqn:Hdel; [done|].
  rewrite fold_raw_descriptors.
  destruct (traverse (decode_descriptor py_int) (raw_descriptors te_json)) as [data|];
    [|done].
  simpl. unfold from_threatexchange_json. cbn [should_delete descriptors_data].
  unfold all_opinions, collect_opinions.
  destruct (fold_left descriptor_step data ([], [])) as [ex im].
  by destruct (fold_left implicit_step im ex).
Qed.

Lemma traverse_None {A B} (f : A → option B) (l : list A) x :
  x ∈ l → f x = None → traverse f l = None.
Proof.
  intros Hin Hx. induction l as [|y l IH]; [by apply not_elem_of_nil in Hin|].
  simpl. apply elem_of_cons in Hin as [<-|Hin]; [by rewrite Hx|].
  destruct (f y); [|done]. by rewrite IH.
Qed.

Lemma recognised_decoded key own :
  recognised (Reaction key own) = recognised_key key.
Proof. reflexivity. Qed.

Lemma traverse_recognised_reactions rs :
  (∀ reaction, reaction ∈ rs → recognised_key (raw_key reaction) = false →
               is_Some (py_int (raw_value reaction))) →
  traverse (decode_reaction py_int) (List.filter (λ r, recognised_key (raw_key r)) rs)
  = List.filter recognised <$> traverse (decode_reaction py_int) rs.
Proof.
  induction rs as [|reaction rs IH]; intros Hconv; simpl; [done|].
  assert (traverse (decode_reaction py_int)
            (List.filter (λ r, recognised_key (raw_key r)) rs)
          = List.filter recognised <$> traverse (decode_reaction py_int) rs) as IH'.
  { apply IH. intros r Hr. apply Hconv, elem_of_cons. by right. }
  destruct (recognised_key (raw_key reaction)) eqn:Hrec; simpl.
  - unfold decode_reaction at 1 3.
    destruct (py_int (raw_value reaction)) as [own|]; [|done].
    rewrite IH'. destruct (traverse (decode_reaction py_int) rs) as [ys|]; [|done].
    cbn [fmap option_fmap option_map List.filter].
    by rewrite recognised_decoded, Hrec.
  - rewrite IH'. unfold decode_reaction at 2.
    destruct (Hconv reaction) as [own ->]; [apply elem_of_cons; by left | done |].
    destruct (traverse (decode_reaction py_int) rs) as [ys|]; [|done].
    cbn [fmap option_fmap option_map List.filter].
    by rewrite recognised_decoded, Hrec.
Qed.

Lemma traverse_recognised_descriptors (data : list RawDescriptorJSON) :
  (∀ td reaction, td ∈ data → reaction ∈ raw_reactions td →
                  recognised_key (raw_key reaction) = false →
                  is_Some (py_int (raw_value reaction))) →
  traverse (decode_descriptor py_int)
    ((λ td, RawDescriptor (raw_id td) (raw_owner_id td) (raw_status td) (raw_tags td)
              (List.filter (λ r, recognised_key (raw_key r)) (raw_reactions td))) <$> data)
  = (λ data' : list DescriptorJSON,
       (λ td, Descriptor (td_id td) (td_owner_id td) (td_status td) (td_tags td)
                (List.filter recognised (td_reactions td))) <$> data')
      <$> traverse (decode_descriptor py_int) data.
Proof.
  induction data as [|td data IH]; intros Hconv; [done|].
  rewrite fmap_cons. cbn [traverse]. rewrite IH; first last.
  { intros td' r Htd'. apply Hconv, elem_of_cons. by right. }
  unfold decode_descriptor at 1 3. cbn [raw_id raw_owner_id raw_status raw_tags raw_reactions].
  destruct (py_int (raw_id td)) as [id|]; [|done].
  destruct (py_int (raw_owner_id td)) as [own|]; [|done].
  rewrite traverse_recognised_reactions; first last.
  { intros r Hr. apply (Hconv td); [apply elem_of_cons; by left | done]. }
  destruct (traverse (decode_reaction py_int) (raw_reactions td)) as [rs|]; [|done].
  simpl. by destruct (traverse (decode_descriptor py_int) data).
Qed.

(** X8. Every reaction's value is converted before its key is looked at.
    Reactions with a key other than [HELPFUL] and [DISAGREE_WITH_TAGS] have
    no effect on the parse provided their values convert: removing them from
    the arriving payload gives the same outcome.  A reaction whose value does
    not convert makes the parse of a payload without the delete marker raise,
    whatever its key. *)
Theorem unrecognised_reactions_ignored (te_json : RawThreatUpdateJSON) :
  ((∀ td reaction, td ∈ raw_descriptors te_json → reaction ∈ raw_reactions td →
                   recognised_key (raw_key reaction) = false →
                   is_Some (py_int (raw_value reaction))) →
   raw_from_threatexchange_json py_int (raw_drop_unrecognised te_json)
   = raw_from_threatexchange_json py_int te_json)
  ∧ (raw_should_delete te_json = false →
     (∃ td reaction, td ∈ raw_descriptors te_json ∧ reaction ∈ raw_reactions td
                     ∧ py_int (raw_value reaction) = None) →
     raw_from_threatexchange_json py_int te_json = Raises).
Proof.
  split.
  - intros Hconv. rewrite !raw_from_threatexchange_json_decoded.
    cbn [raw_drop_unrecognised raw_should_delete].
    destruct (raw_should_delete te_json); [done|].
    unfold decode_update.
    cbn [raw_drop_unrecognised raw_descriptors raw_threat_type raw_indicator raw_time
         raw_should_delete].
    rewrite traverse_recognised_descriptors by done.
    destruct (traverse (decode_descriptor py_int) (raw_descriptors te_json)) as [data|];
      [|done].
    simpl. f_equal.
    apply (converted_payload_drops_unrecognised
             (ThreatUpdate (raw_threat_type te_json) (raw_indicator te_json)
                (raw_time te_json) (raw_should_delete te_json) data)).
  - intros Hdel (td & reaction & Htd & Hr & Hnone).
    rewrite raw_from_threatexchange_json_decoded, Hdel. unfold decode_update.
    rewrite (traverse_None _ _ td Htd); [done|].
    unfold decode_descriptor.
    destruct (py_int (raw_id td)); [|done].
    destruct (py_int (raw_owner_id td)); [|done].
    rewrite (traverse_None _ _ reaction Hr); [done|].
    unfold decode_reaction. by rewrite Hnone.
Qed.
End raw_parse_facts.

Lemma unrecognised_reactions_ignored_witness :
  (∀ td reaction, td ∈ raw_descriptors raw_sample → reaction ∈ raw_reactions td →
                  recognised_key (raw_key reaction) = false →
                  is_Some (sample_int (raw_value reaction)))
  ∧ raw_from_threatexchange_json sample_int (raw_drop_unrecognised raw_sample)
    = raw_from_threatexchange_json sample_int raw_sample
  ∧ raw_from_threatexchange_json sample_int raw_sample
    = Returns (Some (IndicatorRecord [ Opinion 5 POSITIVE_CLASS ["t1"] (Some 1);
                                       Opinion 7 POSITIVE_CLASS [] (Some (-1)) ]))
  ∧ raw_from_threatexchange_json sample_int raw_sample_two_owners = Raises.
Proof.
  assert (∀ td reaction, td ∈ raw_descriptors raw_sample → reaction ∈ raw_reactions td →
                         recognised_key (raw_key reaction) = false →
                         is_Some (sample_int (raw_value reaction))) as Hconv.
  { intros td reaction Htd Hr _. apply list_elem_of_singleton in Htd. subst td.
    simpl in Hr. apply elem_of_cons in Hr as [->|Hr]; [by eexists|].
    apply list_elem_of_singleton in Hr. subst reaction. by eexists. }
  split_and!; [exact Hconv | | reflexivity |].
  - exact (proj1 (unrecognised_reactions_ignored sample_int raw_sample) Hconv).
  - apply (proj2 (unrecognised_reactions_ignored sample_int raw_sample_two_owners));
      [reflexivity|].
    exists (RawDescriptor "1" "5" "MALICIOUS" (TagsList ["t1"])
              [RawReaction "HELPFUL" "7"; RawReaction "SAW_THIS_TOO" "7,8"]),
           (RawReaction "SAW_THIS_TOO" "7,8").
    split_and!; [apply list_elem_of_singleton; reflexivity | | reflexivity].
    simpl. apply elem_of_cons. right. apply list_elem_of_singleton. reflexivity.
Defined.
